(** * fitpc2_tz: thermal zone driver for the FITPC2

    A shallow embedding of [fitpc2_tz.c].  The driver talks to the kernel
    through a handful of calls (PCI configuration space, the read mutex,
    [msleep], the allocator, the thermal framework).  A driver function is
    embedded as a finite tree of such calls; the tree is run either
    sequentially against a kernel that answers the calls, or interleaved
    with other callers under the mutex discipline. *)

From stdpp Require Import gmap list strings.

Local Open Scope Z_scope.

(** ** C integer types *)

Module CInt.

Definition INT_MIN : Z := - 2 ^ 31.
Definition INT_MAX : Z := 2 ^ 31 - 1.

(** Value of a mathematical integer stored in an [int] / [s32]. *)
Definition to_s32 (z : Z) : Z := (z + 2 ^ 31) mod 2 ^ 32 - 2 ^ 31.
Definition to_u32 (z : Z) : Z := z mod 2 ^ 32.
Definition to_u8 (z : Z) : Z := z mod 2 ^ 8.
(** [unsigned long] is as wide as the machine word. *)
Definition to_ulong (bits z : Z) : Z := z mod 2 ^ bits.

Definition fits_s32 (z : Z) : Prop := INT_MIN <= z <= INT_MAX.

(** [int] arithmetic: the exact result, stored back into 32 bits.
    Division truncates toward zero. *)
Definition imul (a b : Z) : Z := to_s32 (a * b).
Definition idiv (a b : Z) : Z := to_s32 (a ÷ b).
Definition isub (a b : Z) : Z := to_s32 (a - b).
Definition iadd (a b : Z) : Z := to_s32 (a + b).

End CInt.
Import CInt.

(** ** The kernel interface

    Pointers are addresses; [NULL] is address 0. *)

Definition ptr : Type := Z.
Definition NULL : ptr := 0.

(** linux/errno.h *)
Definition ENOMEM : Z := 12.
Definition EBUSY : Z := 16.
Definition ENODEV : Z := 19.

(** linux/pci_ids.h *)
Definition PCI_VENDOR_ID_INTEL : Z := 0x8086.

(** linux/thermal.h *)
Inductive thermal_trip_type : Type :=
| THERMAL_TRIP_ACTIVE
| THERMAL_TRIP_PASSIVE
| THERMAL_TRIP_HOT
| THERMAL_TRIP_CRITICAL.

(** linux/dmi.h *)
Inductive dmi_field : Type := DMI_SYS_VENDOR | DMI_PRODUCT_NAME | DMI_BOARD_NAME.

Record dmi_system_id : Type := {
  ident : string;
  matches : list (dmi_field * string)
}.

Global Instance dmi_field_eq_dec : EqDecision dmi_field.
Proof. solve_decision. Defined.

Global Instance dmi_system_id_eq_dec : EqDecision dmi_system_id.
Proof. solve_decision. Defined.

(** The kernel services the driver calls.  [mutex_*] act on [read_mutex],
    the only mutex of the driver; [kzalloc] allocates one zeroed
    [struct fitpc2_tz]; [thermal_zone_device_register] is always passed
    [fitpc2_ops], no device data and zero delays.  The driver ignores the
    status codes of the configuration-space accesses, and the message
    printed by the DMI callback is left out. *)
Inductive kcall : Type :=
| dmi_check_system (table : list dmi_system_id)
| pci_get_device (vendor device : Z) (from : ptr)
| pci_dev_put (dev : ptr)
| pci_write_config_dword (dev : ptr) (off val : Z)
| pci_read_config_dword (dev : ptr) (off : Z)
| mutex_init
| mutex_destroy
| mutex_lock
| mutex_unlock
| msleep (msecs : Z)
| kzalloc
| kfree (p : ptr)
| thermal_zone_device_register (name : string) (trips : Z)
| thermal_zone_device_unregister (tzd : ptr).

Global Instance kcall_eq_dec : EqDecision kcall.
Proof. solve_decision. Defined.

(** Calls whose result the driver stores in a variable: the match count,
    the device, the dword read into [reg], the allocated block, the zone.
    Every other call is used as a statement. *)
Definition delivers (c : kcall) : bool :=
  match c with
  | dmi_check_system _ | pci_get_device _ _ _ | pci_read_config_dword _ _
  | kzalloc | thermal_zone_device_register _ _ => true
  | _ => false
  end.

(** A call together with the value it delivered (0 for a statement). *)
Definition event : Type := kcall * Z.

(** A driver function: a finite tree of kernel calls ending in a result. *)
Inductive prog (A : Type) : Type :=
| Ret (a : A)
| Call (c : kcall) (k : Z → prog A).
Arguments Ret {A} a.
Arguments Call {A} c k.

Declare Scope prog_scope.
Delimit Scope prog_scope with prog.
Notation "x <- c ;; k" := (Call c (fun x => k))
  (at level 100, c at next level, k at level 200, right associativity) : prog_scope.
Notation "c ;; k" := (Call c (fun _ => k))
  (at level 100, k at level 200, right associativity) : prog_scope.

(** A function either returns or dereferences an invalid pointer. *)
Inductive outcome (A : Type) : Type :=
| Done (a : A)
| Oops.
Arguments Done {A} a.
Arguments Oops {A}.

(** *** Sequential execution

    The kernel answers a call from the history of the calls made so far. *)
Definition kernel : Type := list event → kcall → Z.

Definition answer (K : kernel) (tr : list event) (c : kcall) : Z :=
  if delivers c then K tr c else 0.

Fixpoint run {A} (K : kernel) (p : prog A) (tr : list event) : A * list event :=
  match p with
  | Ret a => (a, tr)
  | Call c k => let v := answer K tr c in run K (k v) (tr ++ [(c, v)])
  end.

(** A kernel that answers the delivering calls from a script, in order. *)
Fixpoint delivered (tr : list event) : nat :=
  match tr with
  | [] => O
  | (c, _) :: tr' => if delivers c then S (delivered tr') else delivered tr'
  end.

Definition scripted (answers : list Z) : kernel :=
  fun tr _ => nth (delivered tr) answers 0.

(** *** Resources held, read off a trace of calls *)

Inductive resource : Type :=
| Block (p : ptr)
| Zone (z : ptr)
| DevRef (d : ptr).

Global Instance resource_eq_dec : EqDecision resource.
Proof. solve_decision. Defined.

Definition acquired (e : event) : option resource :=
  match e with
  | (kzalloc, p) => if p =? NULL then None else Some (Block p)
  | (thermal_zone_device_register _ _, z) => if z =? NULL then None else Some (Zone z)
  | (pci_get_device _ _ _, d) => if d =? NULL then None else Some (DevRef d)
  | _ => None
  end.

Definition released (e : event) : option resource :=
  match e with
  | (kfree p, _) => Some (Block p)
  | (thermal_zone_device_unregister z, _) => Some (Zone z)
  | (pci_dev_put d, _) => Some (DevRef d)
  | _ => None
  end.

Fixpoint remove_first (r : resource) (l : list resource) : list resource :=
  match l with
  | [] => []
  | x :: l' => if decide (x = r) then l' else x :: remove_first r l'
  end.

Definition held_step (acc : list resource) (e : event) : list resource :=
  match acquired e, released e with
  | Some r, _ => acc ++ [r]
  | None, Some r => remove_first r acc
  | None, None => acc
  end.

(** What has been acquired and not yet given back after the calls [tr]. *)
Definition held (tr : list event) : list resource := foldl held_step [] tr.

(** *** Concurrent execution

    Several callers run their trees interleaved.  A caller takes one step
    at a time; [mutex_lock] can only be taken while nobody holds the
    mutex.  The log records who made which call. *)
Record config (A : Type) : Type := {
  threads : list (prog A);
  owner : option nat;
  log : list (nat * event)
}.
Arguments threads {A} _.
Arguments owner {A} _.
Arguments log {A} _.

Definition is_sync (c : kcall) : bool :=
  match c with mutex_lock | mutex_unlock => true | _ => false end.

Inductive step {A} : config A → config A → Prop :=
| step_lock cf t k :
    threads cf !! t = Some (Call mutex_lock k) →
    owner cf = None →
    step cf {| threads := <[t := k 0]> (threads cf);
               owner := Some t;
               log := log cf ++ [(t, (mutex_lock, 0))] |}
| step_unlock cf t k :
    threads cf !! t = Some (Call mutex_unlock k) →
    step cf {| threads := <[t := k 0]> (threads cf);
               owner := None;
               log := log cf ++ [(t, (mutex_unlock, 0))] |}
| step_call cf t c k v :
    threads cf !! t = Some (Call c k) →
    is_sync c = false →
    (delivers c = false → v = 0) →
    step cf {| threads := <[t := k v]> (threads cf);
               owner := owner cf;
               log := log cf ++ [(t, (c, v))] |}.

Definition reachable {A} (c0 c : config A) : Prop := rtc step c0 c.

(** Operations that belong to a register transaction. *)
Definition is_txn_op (c : kcall) : bool :=
  match c with
  | pci_write_config_dword _ _ _ | pci_read_config_dword _ _ | msleep _ => true
  | _ => false
  end.

(** Scan a log keeping track of who is inside a transaction: a lock
    opens a window for its caller, only when no window is open; an unlock
    closes the caller's own window; a transaction operation must fall in
    the caller's own window.  [None] means the log broke one of these. *)
Definition scan_event (w : option nat) (te : nat * event) : option (option nat) :=
  let '(t, (c, _)) := te in
  match c with
  | mutex_lock => if decide (w = None) then Some (Some t) else None
  | mutex_unlock => if decide (w = Some t) then Some None else None
  | _ => if is_txn_op c then (if decide (w = Some t) then Some w else None)
         else Some w
  end.

Fixpoint scan (w : option nat) (l : list (nat * event)) : option (option nat) :=
  match l with
  | [] => Some w
  | te :: l' => match scan_event w te with
                | Some w' => scan w' l'
                | None => None
                end
  end.

Definition serialized (l : list (nat * event)) : Prop := is_Some (scan None l).

(** A tree keeps the mutex discipline, started with the mutex held
    ([holding = true]) or not: it locks only when not holding, it unlocks and
    performs transaction operations only when holding, and it returns
    without holding. *)
Fixpoint bracketed {A} (holding : bool) (p : prog A) : Prop :=
  match p with
  | Ret _ => holding = false
  | Call c k =>
      match c with
      | mutex_lock => holding = false ∧ ∀ v, bracketed true (k v)
      | mutex_unlock => holding = true ∧ ∀ v, bracketed false (k v)
      | _ => (is_txn_op c = true → holding = true) ∧ ∀ v, bracketed holding (k v)
      end
  end.

(** Every caller keeps the discipline, exactly the owner is inside a
    window, and the log scans up to the current owner. *)
Definition disciplined {A} (cf : config A) : Prop :=
  (∀ t p, threads cf !! t = Some p → bracketed (bool_decide (owner cf = Some t)) p)
  ∧ scan None (log cf) = Some (owner cf).

(** ** Constants of the driver *)

Definition REG_DELAY : Z := 100.
Definition PCI_PORT5_MCR : Z := 0xD0.
Definition PCI_PORT5_MDR : Z := 0xD4.
Definition TEMP1_MASK : Z := 0x000000FF.
Definition TEMP1_SHIFT : Z := 0.
Definition TEMP2_MASK : Z := 0x0000FF00.
Definition TEMP2_SHIFT : Z := 8.
Definition B0_INIT : Z := 0xFFFFFFFF.
Definition B0_EXIT : Z := 0x00000000.
Definition TEMP_CRIT : Z := 119.
Definition TEMP_TRIP : Z := 119.

(** ** Magic conversion

    [temp] is a [u8]; in the products it is promoted to [int]. *)

Definition temp_convert (temp : Z) : Z :=
  let c1 := idiv (imul (imul 1680 temp) temp) 1000000 in
  let c2 := idiv (imul 82652 temp) 100000 in
  iadd (isub c1 c2) 127.

(** The exact values of the multiplications [temp_convert] performs, in
    evaluation order: [1680 * temp], [(1680 * temp) * temp] and
    [82652 * temp]. *)
Definition temp_convert_products (temp : Z) : list Z :=
  [1680 * temp; imul 1680 temp * temp; 82652 * temp].

(** ** Driver state *)

Record fitpc2_tz : Type := {
  id : Z;
  dev : ptr
}.

(** The globals [pdev] and [tz[0]], [tz[1]], and the blocks the latter
    point to. *)
Record kstate : Type := {
  pdev : ptr;
  tz0 : ptr;
  tz1 : ptr;
  mem : gmap Z fitpc2_tz
}.

Definition set_pdev (st : kstate) (d : ptr) : kstate :=
  {| pdev := d; tz0 := tz0 st; tz1 := tz1 st; mem := mem st |}.
Definition set_tz0 (st : kstate) (p : ptr) : kstate :=
  {| pdev := pdev st; tz0 := p; tz1 := tz1 st; mem := mem st |}.
Definition set_tz1 (st : kstate) (p : ptr) : kstate :=
  {| pdev := pdev st; tz0 := tz0 st; tz1 := p; mem := mem st |}.
Definition set_mem (st : kstate) (m : gmap Z fitpc2_tz) : kstate :=
  {| pdev := pdev st; tz0 := tz0 st; tz1 := tz1 st; mem := m |}.

(** The block [kzalloc] returned, zero-filled, when it is not [NULL]. *)
Definition zalloc (st : kstate) (p : ptr) : kstate :=
  if p =? NULL then st
  else set_mem st (<[p := {| id := 0; dev := NULL |}]> (mem st)).

(** [p->dev = z]; [None] when [p] points to no block. *)
Definition store_dev (st : kstate) (p z : ptr) : option kstate :=
  match mem st !! p with
  | Some t => Some (set_mem st (<[p := {| id := id t; dev := z |}]> (mem st)))
  | None => None
  end.

(** [p->dev]; [None] when [p] points to no block. *)
Definition load_dev (st : kstate) (p : ptr) : option ptr :=
  dev <$> mem st !! p.

Definition free (st : kstate) (p : ptr) : kstate :=
  set_mem st (delete p (mem st)).

Definition fitpc2_dmi_table : list dmi_system_id :=
  [ {| ident := "SBC-FITPC2";
       matches := [ (DMI_SYS_VENDOR, "CompuLab");
                    (DMI_PRODUCT_NAME, "SBC-FITPC2");
                    (DMI_BOARD_NAME, "SBC-FITPC2") ] |} ].

(** ** Thermal zone callbacks

    A callback returns its status code together with the store it made
    through its output pointer, if it made one. *)
Definition status : Type := (Z * option Z)%type.

Section Driver.

(** Width of [unsigned long], the type of [*temperature]. *)
Variable BITS_PER_LONG : Z.

Local Open Scope prog_scope.

Definition get_temp (st : kstate) (thermal_zone : ptr) : prog (outcome status) :=
  if pdev st =? NULL then Ret (Done (- ENODEV, None)) else
  mutex_lock ;;
  pci_write_config_dword (pdev st) PCI_PORT5_MDR B0_INIT ;;
  pci_write_config_dword (pdev st) PCI_PORT5_MCR 0xE004B000 ;;
  msleep REG_DELAY ;;
  pci_write_config_dword (pdev st) PCI_PORT5_MCR 0xD004B100 ;;
  reg <- pci_read_config_dword (pdev st) PCI_PORT5_MDR ;;
  pci_write_config_dword (pdev st) PCI_PORT5_MDR B0_EXIT ;;
  pci_write_config_dword (pdev st) PCI_PORT5_MCR 0xE004B000 ;;
  mutex_unlock ;;
  let reg := to_u32 reg in
  let temp1 := to_u8 (Z.shiftr (Z.land reg TEMP1_MASK) TEMP1_SHIFT) in
  let temp2 := to_u8 (Z.shiftr (Z.land reg TEMP2_MASK) TEMP2_SHIFT) in
  match mem st !! tz0 st with
  | None => Ret Oops
  | Some t0 =>
      if thermal_zone =? dev t0 then
        Ret (Done (0, Some (to_ulong BITS_PER_LONG (temp_convert temp1))))
      else
        match mem st !! tz1 st with
        | None => Ret Oops
        | Some t1 =>
            if thermal_zone =? dev t1 then
              Ret (Done (0, Some (to_ulong BITS_PER_LONG (temp_convert temp2))))
            else Ret (Done (0, None))
        end
  end.

Definition get_crit_temp (tz : ptr) : status := (0, Some TEMP_CRIT).

Definition get_trip_type (tz : ptr) (trip : Z) : Z * option thermal_trip_type :=
  if trip =? 0 then (0, Some THERMAL_TRIP_ACTIVE) else (0, None).

Definition get_trip_temp (tz : ptr) (trip : Z) : status :=
  if trip =? 0 then (0, Some TEMP_TRIP) else (0, None).

(** ** Module init and exit *)

Definition fitpc2_init (st : kstate) : prog (outcome (Z * kstate)) :=
  n <- dmi_check_system fitpc2_dmi_table ;;
  if n =? 0 then Ret (Done (- ENODEV, st)) else
  d <- pci_get_device PCI_VENDOR_ID_INTEL 0x8100 NULL ;;
  let st := set_pdev st d in
  mutex_init ;;
  p <- kzalloc ;;
  let st := set_tz0 (zalloc st p) p in
  if tz0 st =? NULL then Ret (Done (- ENOMEM, st)) else
  p <- kzalloc ;;
  let st := set_tz1 (zalloc st p) p in
  if tz1 st =? NULL then Ret (Done (- ENOMEM, st)) else
  z <- thermal_zone_device_register "FITPC2-1" 0 ;;
  match store_dev st (tz0 st) z with
  | None => Ret Oops
  | Some st =>
      match load_dev st (tz0 st) with
      | None => Ret Oops
      | Some z0 =>
          if z0 =? NULL then Ret (Done (- EBUSY, st)) else
          z <- thermal_zone_device_register "FITPC2-2" 0 ;;
          match store_dev st (tz1 st) z with
          | None => Ret Oops
          | Some st =>
              match load_dev st (tz1 st) with
              | None => Ret Oops
              | Some z1 =>
                  if z1 =? NULL then Ret (Done (- EBUSY, st)) else
                  Ret (Done (0, st))
              end
          end
      end
  end.

Definition fitpc2_exit (st : kstate) : prog (outcome kstate) :=
  match mem st !! tz0 st with
  | None => Ret Oops
  | Some t0 =>
      thermal_zone_device_unregister (dev t0) ;;
      match mem st !! tz1 st with
      | None => Ret Oops
      | Some t1 =>
          thermal_zone_device_unregister (dev t1) ;;
          mutex_destroy ;;
          kfree (tz0 st) ;;
          let st := free st (tz0 st) in
          kfree (tz1 st) ;;
          let st := free st (tz1 st) in
          pci_dev_put (pdev st) ;;
          Ret (Done st)
      end
  end.

End Driver.

(** ** Reference sequences

    The calls of one read transaction on device [d], from taking the mutex
    to giving it back, with [v] the dword the read delivers. *)
Definition transaction (d : ptr) (v : Z) : list event :=
  [ (mutex_lock, 0);
    (pci_write_config_dword d 0xD4 0xFFFFFFFF, 0);
    (pci_write_config_dword d 0xD0 0xE004B000, 0);
    (msleep 100, 0);
    (pci_write_config_dword d 0xD0 0xD004B100, 0);
    (pci_read_config_dword d 0xD4, v);
    (pci_write_config_dword d 0xD4 0x00000000, 0);
    (pci_write_config_dword d 0xD0 0xE004B000, 0);
    (mutex_unlock, 0) ].

(** The dword the kernel delivers to the read of a transaction started
    after the calls [tr]. *)
Definition read_value (K : kernel) (d : ptr) (tr : list event) : Z :=
  K (tr ++ take 5 (transaction d 0)) (pci_read_config_dword d 0xD4).

(** The tree left of [p] once its first calls have been answered with
    [rs]. *)
Fixpoint feed {A} (p : prog A) (rs : list Z) {struct rs} : prog A :=
  match rs, p with
  | r :: rs', Call _ k => feed (k r) rs'
  | _, _ => p
  end.

(** What a read reports when the device presents the dword [v]. *)
Definition reading (bits : Z) (st : kstate) (zone : ptr) (v : Z) : outcome status :=
  (run (fun _ _ => v) (get_temp bits st zone) []).1.

(** A read that has made its first [n] calls, the device presenting [v]. *)
Definition stage (bits : Z) (st : kstate) (zone : ptr) (n : nat) (v : Z)
  : prog (outcome status) :=
  feed (get_temp bits st zone) (take n ((transaction (pdev st) v).*2)).

(** The calls [l], made by caller [t]. *)
Definition tagged (t : nat) (l : list event) : list (nat * event) := pair t <$> l.

(** Two readers, callers 0 and 1, have made the first [na] and [nb] calls
    of their transactions, one of them strictly after the other: the
    second has made no call unless the first has made all nine. *)
Definition one_after_other (d : ptr) (na nb : nat) (va vb : Z)
    (l : list (nat * event)) : Prop :=
  ((nb = 0 ∨ na = 9)%nat
   ∧ l = tagged 0 (take na (transaction d va)) ++ tagged 1 (take nb (transaction d vb)))
  ∨ ((na = 0 ∨ nb = 9)%nat
     ∧ l = tagged 1 (take nb (transaction d vb)) ++ tagged 0 (take na (transaction d va))).

(** The state of two concurrent reads of zones [za] and [zb]: each reader
    is at some stage of its tree, the mutex belongs to the reader that is
    in the middle of its transaction, and the log is one reader's calls
    followed by the other's. *)
Definition readers_inv (bits : Z) (st : kstate) (za zb : ptr)
    (cf : config (outcome status)) : Prop :=
  ∃ (na nb : nat) (va vb : Z),
    (na ≤ 9)%nat ∧ (nb ≤ 9)%nat
    ∧ threads cf = [stage bits st za na va; stage bits st zb nb vb]
    ∧ owner cf = (if decide (0 < na < 9)%nat then Some 0%nat
                  else if decide (0 < nb < 9)%nat then Some 1%nat else None)
    ∧ one_after_other (pdev st) na nb va vb (log cf).

(** The calls of a module load in which the platform matches ([n]
    matches), enumeration answers [d], the two allocations answer [p0]
    and [p1] and the two registrations answer [z0] and [z1]. *)
Definition load_calls (n d p0 p1 z0 z1 : Z) : list event :=
  [ (dmi_check_system fitpc2_dmi_table, n);
    (pci_get_device 0x8086 0x8100 0, d);
    (mutex_init, 0);
    (kzalloc, p0);
    (kzalloc, p1);
    (thermal_zone_device_register "FITPC2-1" 0, z0);
    (thermal_zone_device_register "FITPC2-2" 0, z1) ].

(** ** Sample configurations

    A board after a successful load: device at [0x10], descriptors at
    [0x1000] and [0x2000], zones at [0x3000] and [0x4000]. *)
Definition loaded : kstate :=
  {| pdev := 0x10;
     tz0 := 0x1000;
     tz1 := 0x2000;
     mem := {[ 0x1000 := {| id := 0; dev := 0x3000 |};
               0x2000 := {| id := 0; dev := 0x4000 |} ]} |}.

(** The state before the module is loaded. *)
Definition unloaded : kstate :=
  {| pdev := NULL; tz0 := NULL; tz1 := NULL; mem := ∅ |}.

(** ** Answers of a load

    The values the kernel delivers along a run, in order. *)
Fixpoint answers_of {A} (K : kernel) (p : prog A) (tr : list event) : list Z :=
  match p with
  | Ret _ => []
  | Call c k =>
      let v := answer K tr c in
      (if delivers c then [v] else []) ++ answers_of K (k v) (tr ++ [(c, v)])
  end.

(** The status code of a load whose delivering calls answer [a]: the match
    count, the device, the two blocks, the two zones (a missing answer
    counts as 0). *)
Definition init_code (a : list Z) : Z :=
  if nth 0 a 0 =? 0 then - ENODEV
  else if nth 2 a 0 =? NULL then - ENOMEM
  else if nth 3 a 0 =? NULL then - ENOMEM
  else if nth 4 a 0 =? NULL then - EBUSY
  else if nth 5 a 0 =? NULL then - EBUSY
  else 0.

(** How many calls that load makes before it returns. *)
Definition init_calls_made (a : list Z) : nat :=
  if nth 0 a 0 =? 0 then 1
  else if nth 2 a 0 =? NULL then 4
  else if nth 3 a 0 =? NULL then 5
  else if nth 4 a 0 =? NULL then 6
  else 7.

Definition init_trace (a : list Z) : list event :=
  take (init_calls_made a)
       (load_calls (nth 0 a 0) (nth 1 a 0) (nth 2 a 0) (nth 3 a 0) (nth 4 a 0) (nth 5 a 0)).

(** The calls of a module unload after that load. *)
Definition unload_calls (d p0 p1 z0 z1 : Z) : list event :=
  [ (thermal_zone_device_unregister z0, 0);
    (thermal_zone_device_unregister z1, 0);
    (mutex_destroy, 0);
    (kfree p0, 0);
    (kfree p1, 0);
    (pci_dev_put d, 0) ].

(** * Properties *)

Lemma to_s32_fits z : fits_s32 z → to_s32 z = z.
Proof.
  unfold fits_s32, INT_MIN, INT_MAX, to_s32. intros Hz.
  rewrite Z.mod_small; lia.
Qed.

Lemma temp_convert_exact raw :
  0 <= raw <= 255 →
  temp_convert raw = 1680 * raw ^ 2 / 1000000 - 82652 * raw / 100000 + 127.
Proof.
  intros Hraw. unfold temp_convert, imul, idiv, isub, iadd.
  assert (Hsq : 0 <= raw * raw <= 65025) by nia.
  replace (raw ^ 2) with (raw * raw) by lia.
  set (sq := raw * raw) in *.
  rewrite (to_s32_fits (1680 * raw)) by (unfold fits_s32, INT_MIN, INT_MAX; lia).
  replace (1680 * raw * raw) with (1680 * sq) by (unfold sq; lia).
  rewrite (to_s32_fits (1680 * sq)) by (unfold fits_s32, INT_MIN, INT_MAX; lia).
  rewrite (to_s32_fits (82652 * raw)) by (unfold fits_s32, INT_MIN, INT_MAX; lia).
  rewrite !Z.quot_div_nonneg by lia.
  pose proof (Z.div_pos (1680 * sq) 1000000 ltac:(lia) ltac:(lia)) as H1.
  pose proof (Z.div_le_upper_bound (1680 * sq) 1000000 110 ltac:(lia) ltac:(lia)) as H2.
  pose proof (Z.div_pos (82652 * raw) 100000 ltac:(lia) ltac:(lia)) as H3.
  pose proof (Z.div_le_upper_bound (82652 * raw) 100000 211 ltac:(lia) ltac:(lia)) as H4.
  rewrite (to_s32_fits (_ / 1000000)) by (unfold fits_s32, INT_MIN, INT_MAX; lia).
  rewrite (to_s32_fits (_ / 100000)) by (unfold fits_s32, INT_MIN, INT_MAX; lia).
  rewrite (to_s32_fits (_ - _)) by (unfold fits_s32, INT_MIN, INT_MAX; lia).
  apply to_s32_fits. unfold fits_s32, INT_MIN, INT_MAX; lia.
Qed.

Lemma temp_convert_range raw : 0 <= raw <= 255 → 0 <= temp_convert raw <= 127.
Proof.
  intros Hraw. rewrite temp_convert_exact by done.
  replace (raw ^ 2) with (raw * raw) by lia.
  pose proof (Z.square_nonneg (raw - 246)) as Hsq.
  assert (H1 : 82652 * raw / 100000 * 100000 <= 82652 * raw)
    by (Z.div_mod_to_equations; lia).
  assert (H2 : 1680 * (raw * raw) < (1680 * (raw * raw) / 1000000 + 1) * 1000000)
    by (Z.div_mod_to_equations; lia).
  assert (H3 : 1680 * (raw * raw) / 1000000 <= 82652 * raw / 100000).
  { transitivity (826520 * raw / 1000000).
    - apply Z.div_le_mono; nia.
    - Z.div_mod_to_equations; lia. }
  split; [nia | lia].
Qed.

Lemma to_ulong_small bits z : 32 <= bits → 0 <= z <= 127 → to_ulong bits z = z.
Proof.
  intros Hb Hz. unfold to_ulong. apply Z.mod_small.
  pose proof (Z.pow_le_mono_r 2 32 bits ltac:(lia) Hb). lia.
Qed.

Lemma low_byte v :
  to_u8 (Z.shiftr (Z.land (to_u32 v) TEMP1_MASK) TEMP1_SHIFT) = v mod 2 ^ 8.
Proof.
  unfold to_u8, to_u32, TEMP1_MASK, TEMP1_SHIFT.
  rewrite Z.shiftr_0_r. change 0xFF with (Z.ones 8). rewrite Z.land_ones by lia.
  change (2 ^ 8) with 256. change (2 ^ 32) with 4294967296.
  Z.div_mod_to_equations. lia.
Qed.

Lemma next_byte v :
  to_u8 (Z.shiftr (Z.land (to_u32 v) TEMP2_MASK) TEMP2_SHIFT) = v / 2 ^ 8 mod 2 ^ 8.
Proof.
  unfold to_u8, to_u32, TEMP2_MASK, TEMP2_SHIFT.
  rewrite Z.shiftr_land. change (0xFF00 ≫ 8) with (Z.ones 8).
  rewrite Z.land_ones by lia. rewrite Z.shiftr_div_pow2 by lia.
  change (2 ^ 8) with 256. change (2 ^ 32) with 4294967296.
  Z.div_mod_to_equations. lia.
Qed.

(** ** The read transaction *)

Section GetTemp.

Variable BITS_PER_LONG : Z.
Variable K : kernel.
Variable st : kstate.
Hypothesis have_pdev : pdev st ≠ NULL.

Lemma run_get_temp_events zone tr :
  (run K (get_temp BITS_PER_LONG st zone) tr).2
  = tr ++ transaction (pdev st) (read_value K (pdev st) tr).
Proof.
  unfold get_temp. apply Z.eqb_neq in have_pdev as ->.
  cbn [run answer delivers]. rewrite <- !app_assoc. cbn [app].
  set (v := K _ _).
  replace (read_value K (pdev st) tr) with v by reflexivity.
  destruct (mem st !! tz0 st) as [t0|]; [|reflexivity].
  destruct (zone =? dev t0); [reflexivity|].
  destruct (mem st !! tz1 st) as [t1|]; [|reflexivity].
  destruct (zone =? dev t1); reflexivity.
Qed.

Lemma run_get_temp_result zone tr t0 t1 :
  mem st !! tz0 st = Some t0 →
  mem st !! tz1 st = Some t1 →
  let w := read_value K (pdev st) tr in
  (run K (get_temp BITS_PER_LONG st zone) tr).1
  = Done (0, if zone =? dev t0
             then Some (to_ulong BITS_PER_LONG (temp_convert (w mod 2 ^ 8)))
             else if zone =? dev t1
             then Some (to_ulong BITS_PER_LONG (temp_convert (w / 2 ^ 8 mod 2 ^ 8)))
             else None).
Proof.
  intros H0 H1 w. unfold get_temp. apply Z.eqb_neq in have_pdev as ->.
  cbn [run answer delivers]. rewrite <- !app_assoc. cbn [app].
  set (v := K _ _). replace w with v by reflexivity.
  rewrite H0, H1, low_byte, next_byte.
  destruct (zone =? dev t0); [reflexivity|].
  destruct (zone =? dev t1); reflexivity.
Qed.

End GetTemp.

Lemma run_get_temp_absent bits K st zone tr :
  pdev st = NULL →
  run K (get_temp bits st zone) tr = (Done (- ENODEV, None), tr).
Proof. intros H. unfold get_temp. rewrite H. reflexivity. Qed.

(** ** Claims about the conversion *)

(** C1: for every raw byte in [0,255], [temp_convert] equals
    1680 * raw^2 / 1000000 - 82652 * raw / 100000 + 127 in exact integer
    arithmetic, whether the divisions truncate or round down; and
    [temp_convert 0] is 127. *)
Theorem temp_convert_formula raw :
  0 <= raw <= 255 →
  temp_convert raw = (1680 * raw ^ 2) ÷ 1000000 - (82652 * raw) ÷ 100000 + 127
  ∧ temp_convert raw = 1680 * raw ^ 2 / 1000000 - 82652 * raw / 100000 + 127
  ∧ temp_convert 0 = 127.
Proof.
  intros Hraw. split; [|split; [by apply temp_convert_exact | reflexivity]].
  rewrite temp_convert_exact by done.
  rewrite !Z.quot_div_nonneg by nia. reflexivity.
Qed.

Lemma temp_convert_formula_witness :
  temp_convert 30 = (1680 * 30 ^ 2) ÷ 1000000 - (82652 * 30) ÷ 100000 + 127
  ∧ temp_convert 30 = 1680 * 30 ^ 2 / 1000000 - 82652 * 30 / 100000 + 127
  ∧ temp_convert 0 = 127.
Proof. apply (temp_convert_formula 30). lia. Defined.

(** C6: for every raw byte in [0,255] each product [temp_convert] forms
    fits a signed 32-bit integer, so the 32-bit products are the exact
    ones; the largest, 1680 * raw * raw, is at most 1680 * 255 * 255,
    which is below 2^31. *)
Theorem temp_convert_no_overflow raw :
  0 <= raw <= 255 →
  Forall fits_s32 (temp_convert_products raw)
  ∧ imul 1680 raw = 1680 * raw
  ∧ imul (imul 1680 raw) raw = 1680 * raw * raw
  ∧ imul 82652 raw = 82652 * raw
  ∧ 1680 * raw * raw <= 1680 * 255 * 255
  ∧ 1680 * 255 * 255 < 2 ^ 31.
Proof.
  intros Hraw.
  assert (Hsq : 0 <= raw * raw <= 65025) by nia.
  assert (Ha : fits_s32 (1680 * raw)) by (unfold fits_s32, INT_MIN, INT_MAX; lia).
  assert (Hb : fits_s32 (1680 * raw * raw)).
  { unfold fits_s32, INT_MIN, INT_MAX.
    replace (1680 * raw * raw) with (1680 * (raw * raw)) by lia. lia. }
  assert (Hc : fits_s32 (82652 * raw)) by (unfold fits_s32, INT_MIN, INT_MAX; lia).
  assert (Ea : imul 1680 raw = 1680 * raw) by (by apply to_s32_fits).
  split; [|split; [done|split; [|split; [by apply to_s32_fits|split]]]].
  - unfold temp_convert_products. rewrite Ea.
    repeat (apply Forall_cons; split; [done|]). apply Forall_nil_2.
  - rewrite Ea. by apply to_s32_fits.
  - replace (1680 * raw * raw) with (1680 * (raw * raw)) by lia. lia.
  - reflexivity.
Qed.

Lemma temp_convert_no_overflow_witness :
  Forall fits_s32 (temp_convert_products 255)
  ∧ imul 1680 255 = 1680 * 255
  ∧ imul (imul 1680 255) 255 = 1680 * 255 * 255
  ∧ imul 82652 255 = 82652 * 255
  ∧ 1680 * 255 * 255 <= 1680 * 255 * 255
  ∧ 1680 * 255 * 255 < 2 ^ 31.
Proof. apply (temp_convert_no_overflow 255). lia. Defined.

(** ** Claims about the trip policy *)

(** C4: the critical temperature is always 119; trip 0 has temperature
    119 and type active; for any other trip index the callbacks store
    nothing. *)
Theorem trip_policy_fixed (tz : ptr) (n : Z) :
  n ≠ 0 →
  get_crit_temp tz = (0, Some 119)
  ∧ get_trip_temp tz 0 = (0, Some 119)
  ∧ get_trip_temp tz n = (0, None)
  ∧ get_trip_type tz 0 = (0, Some THERMAL_TRIP_ACTIVE)
  ∧ get_trip_type tz n = (0, None).
Proof.
  intros Hn. unfold get_crit_temp, get_trip_temp, get_trip_type.
  apply Z.eqb_neq in Hn as ->. done.
Qed.

Lemma trip_policy_fixed_witness :
  get_crit_temp 0x3000 = (0, Some 119)
  ∧ get_trip_temp 0x3000 0 = (0, Some 119)
  ∧ get_trip_temp 0x3000 1 = (0, None)
  ∧ get_trip_type 0x3000 0 = (0, Some THERMAL_TRIP_ACTIVE)
  ∧ get_trip_type 0x3000 1 = (0, None).
Proof. apply (trip_policy_fixed 0x3000 1). lia. Defined.

(** ** Claims about the read *)

(** C2: with the device present, one read makes exactly these calls, in
    this order: take the mutex, write 0xFFFFFFFF to the data register
    0xD4, write 0xE004B000 to the command register 0xD0, sleep 100, write
    0xD004B100 to the command register, read the data register, write 0
    to the data register, write 0xE004B000 to the command register, give
    the mutex back. *)
Theorem get_temp_sequence bits K st zone tr :
  pdev st ≠ NULL →
  ∃ v,
    (run K (get_temp bits st zone) tr).2
    = tr ++ [ (mutex_lock, 0);
              (pci_write_config_dword (pdev st) 0xD4 0xFFFFFFFF, 0);
              (pci_write_config_dword (pdev st) 0xD0 0xE004B000, 0);
              (msleep 100, 0);
              (pci_write_config_dword (pdev st) 0xD0 0xD004B100, 0);
              (pci_read_config_dword (pdev st) 0xD4, v);
              (pci_write_config_dword (pdev st) 0xD4 0x00000000, 0);
              (pci_write_config_dword (pdev st) 0xD0 0xE004B000, 0);
              (mutex_unlock, 0) ].
Proof.
  intros Hp. exists (read_value K (pdev st) tr).
  by rewrite run_get_temp_events.
Qed.

Lemma get_temp_sequence_witness :
  ∃ v,
    (run (scripted [0x00001E0A]) (get_temp 32 loaded 0x3000) []).2
    = [ (mutex_lock, 0);
        (pci_write_config_dword 0x10 0xD4 0xFFFFFFFF, 0);
        (pci_write_config_dword 0x10 0xD0 0xE004B000, 0);
        (msleep 100, 0);
        (pci_write_config_dword 0x10 0xD0 0xD004B100, 0);
        (pci_read_config_dword 0x10 0xD4, v);
        (pci_write_config_dword 0x10 0xD4 0x00000000, 0);
        (pci_write_config_dword 0x10 0xD0 0xE004B000, 0);
        (mutex_unlock, 0) ].
Proof.
  apply (get_temp_sequence 32 (scripted [0x00001E0A]) loaded 0x3000 []).
  unfold NULL. simpl. lia.
Defined.

(** C3 as written gives, for the status word 0x00001E0A, the byte 30 to
    sensor 0 and the byte 10 to sensor 1.  The low byte of that word is
    0x0A = 10 and the next byte is 0x1E = 30, so the driver reports
    [temp_convert 10] for the first zone and [temp_convert 30] for the
    second. *)
Lemma status_word_1E0A_not_as_written :
  ¬ ((run (scripted [0x00001E0A]) (get_temp 32 loaded 0x3000) []).1
       = Done (0, Some (temp_convert 30))
     ∧ (run (scripted [0x00001E0A]) (get_temp 32 loaded 0x4000) []).1
       = Done (0, Some (temp_convert 10))).
Proof. intros [H _]. vm_compute in H. discriminate H. Qed.

(** C3, amended: the byte of the first zone is bits [7:0] of the status
    word and the byte of the second zone is bits [15:8]; each zone reads
    [temp_convert] of its own byte; two status words that agree on their
    low 16 bits give the same reading.  (For 0x00001E0A: [temp_convert 10]
    for the first zone, [temp_convert 30] for the second.) *)
Theorem get_temp_sensor_bytes bits K st tr t0 t1 :
  pdev st ≠ NULL →
  mem st !! tz0 st = Some t0 →
  mem st !! tz1 st = Some t1 →
  dev t0 ≠ dev t1 →
  32 <= bits →
  let w := read_value K (pdev st) tr in
  (run K (get_temp bits st (dev t0)) tr).1
    = Done (0, Some (temp_convert (w mod 2 ^ 8)))
  ∧ (run K (get_temp bits st (dev t1)) tr).1
    = Done (0, Some (temp_convert (w / 2 ^ 8 mod 2 ^ 8)))
  ∧ (∀ i, 0 <= i < 8 →
       Z.testbit (w mod 2 ^ 8) i = Z.testbit w i
       ∧ Z.testbit (w / 2 ^ 8 mod 2 ^ 8) i = Z.testbit w (i + 8))
  ∧ (∀ K' zone,
       read_value K' (pdev st) tr mod 2 ^ 16 = w mod 2 ^ 16 →
       (run K' (get_temp bits st zone) tr).1 = (run K (get_temp bits st zone) tr).1).
Proof.
  intros Hp H0 H1 Hne Hbits w.
  assert (Hb0 : 0 <= w mod 2 ^ 8 <= 255) by (pose proof (Z.mod_pos_bound w (2 ^ 8)); lia).
  assert (Hb1 : 0 <= w / 2 ^ 8 mod 2 ^ 8 <= 255)
    by (pose proof (Z.mod_pos_bound (w / 2 ^ 8) (2 ^ 8)); lia).
  repeat split.
  - rewrite (run_get_temp_result bits K st Hp (dev t0) tr t0 t1 H0 H1).
    rewrite Z.eqb_refl. fold w.
    rewrite to_ulong_small; [done | done | by apply temp_convert_range].
  - rewrite (run_get_temp_result bits K st Hp (dev t1) tr t0 t1 H0 H1).
    assert ((dev t1 =? dev t0) = false) as -> by (apply Z.eqb_neq; congruence).
    rewrite Z.eqb_refl. fold w.
    rewrite to_ulong_small; [done | done | by apply temp_convert_range].
  - rewrite Z.mod_pow2_bits_low by lia. reflexivity.
  - rewrite Z.mod_pow2_bits_low by lia.
    rewrite <- Z.shiftr_div_pow2 by lia. rewrite Z.shiftr_spec by lia. reflexivity.
  - intros K' zone Heq.
    rewrite (run_get_temp_result bits K' st Hp zone tr t0 t1 H0 H1).
    rewrite (run_get_temp_result bits K st Hp zone tr t0 t1 H0 H1).
    fold w. set (w' := read_value K' (pdev st) tr) in *.
    assert (w' mod 2 ^ 8 = w mod 2 ^ 8) as ->.
    { change (2 ^ 16) with 65536 in Heq. change (2 ^ 8) with 256.
      Z.div_mod_to_equations. lia. }
    assert (w' / 2 ^ 8 mod 2 ^ 8 = w / 2 ^ 8 mod 2 ^ 8) as ->.
    { change (2 ^ 16) with 65536 in Heq. change (2 ^ 8) with 256.
      Z.div_mod_to_equations. lia. }
    reflexivity.
Qed.

Lemma get_temp_sensor_bytes_witness :
  (run (scripted [0x00001E0A]) (get_temp 32 loaded 0x3000) []).1
    = Done (0, Some (temp_convert 10))
  ∧ (run (scripted [0x00001E0A]) (get_temp 32 loaded 0x4000) []).1
    = Done (0, Some (temp_convert 30)).
Proof.
  pose proof (get_temp_sensor_bytes 32 (scripted [0x00001E0A]) loaded []
                {| id := 0; dev := 0x3000 |} {| id := 0; dev := 0x4000 |}) as H.
  destruct H as (Ha & Hb & _).
  - unfold NULL. simpl. lia.
  - reflexivity.
  - reflexivity.
  - simpl. lia.
  - lia.
  - split; [exact Ha | exact Hb].
Defined.

(** C5: the read fails exactly when the device handle is absent; the
    failure is "no such device", stores nothing and makes no call at all;
    with the handle present the read returns success. *)
Theorem get_temp_fails_iff_no_device bits K st zone tr :
  (pdev st ≠ NULL → is_Some (mem st !! tz0 st) ∧ is_Some (mem st !! tz1 st)) →
  ∃ code out,
    (run K (get_temp bits st zone) tr).1 = Done (code, out)
    ∧ (code ≠ 0 ↔ pdev st = NULL)
    ∧ (code ≠ 0 →
         code = - ENODEV ∧ out = None
         ∧ (run K (get_temp bits st zone) tr).2 = tr)
    ∧ (pdev st ≠ NULL → code = 0).
Proof.
  intros Hvalid. destruct (decide (pdev st = NULL)) as [Hnull|Hp].
  - exists (- ENODEV), None. rewrite run_get_temp_absent by done.
    repeat split; done.
  - destruct (Hvalid Hp) as [[t0 H0] [t1 H1]].
    eexists 0, _. split; [by apply run_get_temp_result|].
    repeat split; done.
Qed.

Lemma get_temp_fails_iff_no_device_witness :
  (∃ code out,
     (run (scripted [0x00001E0A]) (get_temp 32 loaded 0x3000) []).1 = Done (code, out)
     ∧ (code ≠ 0 ↔ pdev loaded = NULL)
     ∧ (code ≠ 0 →
          code = - ENODEV ∧ out = None
          ∧ (run (scripted [0x00001E0A]) (get_temp 32 loaded 0x3000) []).2 = [])
     ∧ (pdev loaded ≠ NULL → code = 0))
  ∧ (∃ code out,
     (run (scripted []) (get_temp 32 unloaded 0x3000) []).1 = Done (code, out)
     ∧ (code ≠ 0 ↔ pdev unloaded = NULL)
     ∧ (code ≠ 0 →
          code = - ENODEV ∧ out = None
          ∧ (run (scripted []) (get_temp 32 unloaded 0x3000) []).2 = [])
     ∧ (pdev unloaded ≠ NULL → code = 0)).
Proof.
  split.
  - apply (get_temp_fails_iff_no_device 32 (scripted [0x00001E0A]) loaded 0x3000 []).
    intros _. split; eexists; reflexivity.
  - apply (get_temp_fails_iff_no_device 32 (scripted []) unloaded 0x3000 []).
    intros H. exfalso. apply H. reflexivity.
Defined.

(** C10: called with the device present for a zone that is neither of
    the two registered ones, the read still performs the whole
    transaction, returns success and stores no temperature. *)
Theorem get_temp_unknown_zone bits K st zone tr t0 t1 :
  pdev st ≠ NULL →
  mem st !! tz0 st = Some t0 →
  mem st !! tz1 st = Some t1 →
  zone ≠ dev t0 →
  zone ≠ dev t1 →
  run K (get_temp bits st zone) tr
  = (Done (0, None), tr ++ transaction (pdev st) (read_value K (pdev st) tr)).
Proof.
  intros Hp H0 H1 Hz0 Hz1. apply injective_projections.
  - rewrite (run_get_temp_result bits K st Hp zone tr t0 t1 H0 H1).
    apply Z.eqb_neq in Hz0 as ->. apply Z.eqb_neq in Hz1 as ->. reflexivity.
  - by apply run_get_temp_events.
Qed.

Lemma get_temp_unknown_zone_witness :
  run (scripted [0x00001E0A]) (get_temp 32 loaded 0x5000) []
  = (Done (0, None), transaction 0x10 0x00001E0A).
Proof.
  apply (get_temp_unknown_zone 32 (scripted [0x00001E0A]) loaded 0x5000 []
           {| id := 0; dev := 0x3000 |} {| id := 0; dev := 0x4000 |}).
  - unfold NULL. simpl. lia.
  - reflexivity.
  - reflexivity.
  - simpl. lia.
  - simpl. lia.
Defined.

(** ** Module load *)

Lemma run_init_no_match K st :
  answer K [] (dmi_check_system fitpc2_dmi_table) = 0 →
  run K (fitpc2_init st) []
  = (Done (- ENODEV, st), [(dmi_check_system fitpc2_dmi_table, 0)]).
Proof. intros H. unfold fitpc2_init. cbn [run]. rewrite H. reflexivity. Qed.

Lemma run_init_loaded n d p0 p1 z0 z1 st :
  n ≠ 0 → p0 ≠ NULL → p1 ≠ NULL → p0 ≠ p1 → z0 ≠ NULL → z1 ≠ NULL →
  run (scripted [n; d; p0; p1; z0; z1]) (fitpc2_init st) []
  = (Done (0, {| pdev := d; tz0 := p0; tz1 := p1;
                 mem := <[p1 := {| id := 0; dev := z1 |}]>
                          (<[p0 := {| id := 0; dev := z0 |}]>
                             (<[p1 := {| id := 0; dev := NULL |}]>
                                (<[p0 := {| id := 0; dev := NULL |}]> (mem st)))) |}),
     load_calls n d p0 p1 z0 z1).
Proof.
  intros Hn Hp0 Hp1 Hne Hz0 Hz1. unfold fitpc2_init.
  cbn [run answer delivers scripted delivered app nth].
  apply Z.eqb_neq in Hn as ->.
  cbn [run answer delivers scripted delivered app nth tz0 tz1 set_tz0 set_tz1].
  rewrite (proj2 (Z.eqb_neq p0 NULL) Hp0).
  cbn [run answer delivers scripted delivered app nth tz0 tz1 set_tz0 set_tz1].
  rewrite (proj2 (Z.eqb_neq p1 NULL) Hp1).
  cbn [run answer delivers scripted delivered app nth].
  unfold zalloc.
  rewrite (proj2 (Z.eqb_neq p0 NULL) Hp0), (proj2 (Z.eqb_neq p1 NULL) Hp1).
  unfold store_dev, load_dev.
  cbn [mem pdev tz0 tz1 set_mem set_pdev set_tz0 set_tz1].
  rewrite lookup_insert_ne by done. rewrite lookup_insert_eq.
  cbn [mem pdev tz0 tz1 set_mem id dev fmap option_fmap option_map].
  rewrite lookup_insert_eq. cbn [fmap option_fmap option_map dev].
  rewrite (proj2 (Z.eqb_neq z0 NULL) Hz0).
  cbn [run answer delivers scripted delivered app nth mem pdev tz0 tz1 set_mem id dev].
  rewrite lookup_insert_ne by done. rewrite lookup_insert_eq.
  cbn [mem pdev tz0 tz1 set_mem id dev fmap option_fmap option_map].
  rewrite lookup_insert_eq. cbn [fmap option_fmap option_map dev].
  rewrite (proj2 (Z.eqb_neq z1 NULL) Hz1).
  cbn [run id dev]. reflexivity.
Qed.

(** A successful load leaves both descriptors allocated, each pointing to
    its zone: the state in which the framework calls [get_temp]. *)
Lemma loaded_descriptors n d p0 p1 z0 z1 st st' :
  n ≠ 0 → p0 ≠ NULL → p1 ≠ NULL → p0 ≠ p1 → z0 ≠ NULL → z1 ≠ NULL →
  (run (scripted [n; d; p0; p1; z0; z1]) (fitpc2_init st) []).1 = Done (0, st') →
  pdev st' = d
  ∧ mem st' !! tz0 st' = Some {| id := 0; dev := z0 |}
  ∧ mem st' !! tz1 st' = Some {| id := 0; dev := z1 |}.
Proof.
  intros Hn Hp0 Hp1 Hne Hz0 Hz1.
  rewrite run_init_loaded by done. intros [= <-]. cbn [pdev tz0 tz1 mem].
  split; [done|]. split.
  - rewrite lookup_insert_ne by done. apply lookup_insert_eq.
  - apply lookup_insert_eq.
Qed.

(** C8 as written has the load refuse when enumeration finds no device.
    The driver stores the null handle and carries on: with the platform
    matched and every later call succeeding, the load does not report "no
    such device" and it leaves two blocks and two zones behind. *)
Lemma load_without_device_not_refused :
  let r := run (scripted [1; NULL; 0x1000; 0x2000; 0x3000; 0x4000])
               (fitpc2_init unloaded) [] in
  ¬ ((∃ st', r.1 = Done (- ENODEV, st')) ∧ held r.2 = []).
Proof.
  intros r [_ H]. unfold r in H.
  rewrite run_init_loaded in H by done.
  vm_compute in H. discriminate H.
Qed.

(** C8, amended: the load reports "no such device", having allocated and
    registered nothing, when the platform does not match.  When the
    platform matches and enumeration finds no device, the load goes on as
    usual: if the allocations and registrations succeed it returns
    success with both descriptors allocated and both zones registered,
    the device handle stays null, and every later read reports "no such
    device" without making a call. *)
Theorem load_without_device bits n p0 p1 z0 z1 st zone :
  n ≠ 0 → p0 ≠ NULL → p1 ≠ NULL → p0 ≠ p1 → z0 ≠ NULL → z1 ≠ NULL →
  (∀ K, answer K [] (dmi_check_system fitpc2_dmi_table) = 0 →
        run K (fitpc2_init st) []
        = (Done (- ENODEV, st), [(dmi_check_system fitpc2_dmi_table, 0)])
        ∧ held [(dmi_check_system fitpc2_dmi_table, 0)] = [])
  ∧ ∃ st',
      run (scripted [n; NULL; p0; p1; z0; z1]) (fitpc2_init st) []
      = (Done (0, st'), load_calls n NULL p0 p1 z0 z1)
      ∧ pdev st' = NULL
      ∧ held (load_calls n NULL p0 p1 z0 z1) = [Block p0; Block p1; Zone z0; Zone z1]
      ∧ ∀ K tr, run K (get_temp bits st' zone) tr = (Done (- ENODEV, None), tr).
Proof.
  intros Hn Hp0 Hp1 Hne Hz0 Hz1. split.
  - intros K HK. split; [by apply run_init_no_match | reflexivity].
  - eexists. split; [by apply run_init_loaded|].
    split; [reflexivity|]. split.
    + unfold held, load_calls. cbn [foldl].
      unfold held_step, acquired, released.
      rewrite (proj2 (Z.eqb_neq p0 NULL) Hp0), (proj2 (Z.eqb_neq p1 NULL) Hp1),
        (proj2 (Z.eqb_neq z0 NULL) Hz0), (proj2 (Z.eqb_neq z1 NULL) Hz1).
      reflexivity.
    + intros K tr. by apply run_get_temp_absent.
Qed.

Lemma load_without_device_witness :
  (∀ K, answer K [] (dmi_check_system fitpc2_dmi_table) = 0 →
        run K (fitpc2_init unloaded) []
        = (Done (- ENODEV, unloaded), [(dmi_check_system fitpc2_dmi_table, 0)])
        ∧ held [(dmi_check_system fitpc2_dmi_table, 0)] = [])
  ∧ ∃ st',
      run (scripted [1; NULL; 0x1000; 0x2000; 0x3000; 0x4000]) (fitpc2_init unloaded) []
      = (Done (0, st'), load_calls 1 NULL 0x1000 0x2000 0x3000 0x4000)
      ∧ pdev st' = NULL
      ∧ held (load_calls 1 NULL 0x1000 0x2000 0x3000 0x4000)
        = [Block 0x1000; Block 0x2000; Zone 0x3000; Zone 0x4000]
      ∧ ∀ K tr, run K (get_temp 32 st' 0x3000) tr = (Done (- ENODEV, None), tr).
Proof.
  apply (load_without_device 32 1 0x1000 0x2000 0x3000 0x4000 unloaded 0x3000);
    unfold NULL; lia.
Defined.

(** C7: a load that fails after it has acquired something.  When the
    second allocation fails the load returns -ENOMEM still holding the
    device and the first block; when the second registration fails it
    returns -EBUSY still holding the device, both blocks and the first
    zone.  The unload path gives all of them back. *)
Theorem load_failure_keeps_resources :
  let r1 := run (scripted [1; 0x10; 0x1000; NULL]) (fitpc2_init unloaded) [] in
  let r2 := run (scripted [1; 0x10; 0x1000; 0x2000; 0x3000; NULL])
                (fitpc2_init unloaded) [] in
  let r3 := run (scripted [1; 0x10; 0x1000; 0x2000; 0x3000; 0x4000])
                (fitpc2_init unloaded) [] in
  (∃ st', r1.1 = Done (- ENOMEM, st'))
  ∧ held r1.2 = [DevRef 0x10; Block 0x1000]
  ∧ (∃ st', r2.1 = Done (- EBUSY, st'))
  ∧ held r2.2 = [DevRef 0x10; Block 0x1000; Block 0x2000; Zone 0x3000]
  ∧ (∃ st', r3.1 = Done (0, st')
       ∧ held r3.2 = [DevRef 0x10; Block 0x1000; Block 0x2000; Zone 0x3000; Zone 0x4000]
       ∧ ∃ st'', run (scripted []) (fitpc2_exit st') r3.2 = (Done st'', r3.2 ++
            [ (thermal_zone_device_unregister 0x3000, 0);
              (thermal_zone_device_unregister 0x4000, 0);
              (mutex_destroy, 0);
              (kfree 0x1000, 0);
              (kfree 0x2000, 0);
              (pci_dev_put 0x10, 0) ])
         ∧ held (run (scripted []) (fitpc2_exit st') r3.2).2 = []).
Proof.
  cbv zeta. split; [|split; [|split; [|split]]].
  - eexists. vm_compute. reflexivity.
  - vm_compute. reflexivity.
  - eexists. vm_compute. reflexivity.
  - vm_compute. reflexivity.
  - rewrite run_init_loaded by done. eexists. split; [reflexivity|].
    split; [vm_compute; reflexivity|].
    eexists. split; vm_compute; reflexivity.
Qed.

(** ** Concurrent callers *)

Section Discipline.

Context {A : Type}.
Implicit Types (cf : config A) (p : prog A) (t : nat).

Lemma scan_snoc w l te :
  scan w (l ++ [te]) = scan w l ≫= λ w', scan_event w' te.
Proof.
  revert w. induction l as [|x l IH]; intros w; simpl.
  - by destruct (scan_event w te).
  - destruct (scan_event w x); [apply IH | done].
Qed.

Lemma bracketed_call holding c (k : Z → prog A) :
  bracketed holding (Call c k) →
  is_sync c = false →
  (is_txn_op c = true → holding = true) ∧ ∀ v, bracketed holding (k v).
Proof. destruct c; simpl; try done. Qed.

Lemma step_disciplined cf cf' : disciplined cf → step cf cf' → disciplined cf'.
Proof.
  intros [Hthr Hscan] Hstep.
  destruct Hstep as [cf t k Ht Hfree | cf t k Ht | cf t c k v Ht Hsync Hv].
  - (* lock *)
    pose proof (Hthr t _ Ht) as [_ Hk]. split; cbn [threads owner log].
    + intros t' p Hp. destruct (decide (t = t')) as [<-|Hne].
      * rewrite bool_decide_eq_true_2 by done.
        rewrite list_lookup_insert_eq in Hp by (by eapply lookup_lt_Some).
        injection Hp as <-. apply Hk.
      * rewrite list_lookup_insert_ne in Hp by done.
        rewrite bool_decide_eq_false_2 by congruence.
        specialize (Hthr t' p Hp). rewrite Hfree in Hthr.
        by rewrite bool_decide_eq_false_2 in Hthr.
    + rewrite scan_snoc, Hscan, Hfree. simpl. done.
  - (* unlock *)
    pose proof (Hthr t _ Ht) as [Hown Hk]. apply bool_decide_eq_true in Hown.
    split; cbn [threads owner log].
    + intros t' p Hp. rewrite bool_decide_eq_false_2 by done.
      destruct (decide (t = t')) as [<-|Hne].
      * rewrite list_lookup_insert_eq in Hp by (by eapply lookup_lt_Some).
        injection Hp as <-. apply Hk.
      * rewrite list_lookup_insert_ne in Hp by done.
        specialize (Hthr t' p Hp).
        rewrite bool_decide_eq_false_2 in Hthr by congruence. done.
    + rewrite scan_snoc, Hscan, Hown. simpl. by rewrite decide_True.
  - (* any other call *)
    pose proof (bracketed_call _ _ _ (Hthr t _ Ht) Hsync) as [Hop Hk].
    split; cbn [threads owner log].
    + intros t' p Hp. destruct (decide (t = t')) as [<-|Hne].
      * rewrite list_lookup_insert_eq in Hp by (by eapply lookup_lt_Some).
        injection Hp as <-. apply Hk.
      * rewrite list_lookup_insert_ne in Hp by done. by apply Hthr.
    + rewrite scan_snoc, Hscan. simpl.
      destruct (is_txn_op c) eqn:Eop.
      * specialize (Hop eq_refl). apply bool_decide_eq_true in Hop.
        destruct c; try done; by rewrite decide_True.
      * destruct c; done.
Qed.

Lemma reachable_disciplined cf cf' :
  disciplined cf → reachable cf cf' → disciplined cf'.
Proof. intros H Hr. induction Hr; eauto using step_disciplined. Qed.

(** Callers that keep the discipline never overlap their transactions,
    however many they are and however they are scheduled. *)
Lemma disciplined_serialized (ps : list (prog A)) cf :
  Forall (bracketed false) ps →
  reachable {| threads := ps; owner := None; log := [] |} cf →
  serialized (log cf).
Proof.
  intros Hps Hr.
  assert (disciplined {| threads := ps; owner := None; log := [] |}) as H0.
  { split; [|done]. cbn [threads owner]. intros t p Hp.
    rewrite bool_decide_eq_false_2 by done.
    eapply Forall_lookup_1; eauto. }
  destruct (reachable_disciplined _ _ H0 Hr) as [_ Hscan].
  unfold serialized. rewrite Hscan. eauto.
Qed.

End Discipline.

Lemma get_temp_bracketed bits st zone : bracketed false (get_temp bits st zone).
Proof.
  unfold get_temp. destruct (pdev st =? NULL); [done|].
  simpl. repeat (split; [done|]; intros _).
  destruct (mem st !! tz0 st) as [t0|]; [|done].
  destruct (zone =? dev t0); [done|].
  destruct (mem st !! tz1 st) as [t1|]; [|done].
  destruct (zone =? dev t1); done.
Qed.

(** *** Two readers *)

Section TwoReaders.

Variable bits : Z.
Variable st : kstate.
Variables za zb : ptr.
Hypothesis have_pdev : pdev st ≠ NULL.

Local Open Scope prog_scope.
Local Open Scope nat_scope.

Lemma get_temp_unfold zone :
  get_temp bits st zone =
    (mutex_lock ;;
     pci_write_config_dword (pdev st) PCI_PORT5_MDR B0_INIT ;;
     pci_write_config_dword (pdev st) PCI_PORT5_MCR 0xE004B000%Z ;;
     msleep REG_DELAY ;;
     pci_write_config_dword (pdev st) PCI_PORT5_MCR 0xD004B100%Z ;;
     reg <- pci_read_config_dword (pdev st) PCI_PORT5_MDR ;;
     pci_write_config_dword (pdev st) PCI_PORT5_MDR B0_EXIT ;;
     pci_write_config_dword (pdev st) PCI_PORT5_MCR 0xE004B000%Z ;;
     mutex_unlock ;;
     Ret (reading bits st zone reg)).
Proof.
  unfold reading, get_temp. apply Z.eqb_neq in have_pdev as ->.
  cbn [run answer delivers].
  destruct (mem st !! tz0 st) as [t0|]; [|reflexivity].
  destruct (zone =? dev t0)%Z; [reflexivity|].
  destruct (mem st !! tz1 st) as [t1|]; [|reflexivity].
  destruct (zone =? dev t1)%Z; reflexivity.
Qed.

Lemma stage_done zone v : stage bits st zone 9 v = Ret (reading bits st zone v).
Proof. unfold stage. rewrite get_temp_unfold. reflexivity. Qed.

Lemma stage_step zone n v c k :
  n ≤ 9 →
  stage bits st zone n v = Call c k →
  n < 9
  ∧ (c = mutex_lock ↔ n = 0)
  ∧ (c = mutex_unlock ↔ n = 8)
  ∧ ∀ r, (delivers c = false → r = 0%Z) →
      let v' := if decide (n = 5) then r else v in
      k r = stage bits st zone (S n) v'
      ∧ take (S n) (transaction (pdev st) v')
        = take n (transaction (pdev st) v) ++ [(c, r)].
Proof.
  intros Hn. unfold stage. rewrite get_temp_unfold.
  do 9 (destruct n as [|n];
        [ cbn; intros [= <- <-]; split; [lia|];
          split; [done|]; split; [done|];
          intros r Hr; try rewrite (Hr eq_refl); split; reflexivity |]).
  destruct n; [|lia]. cbn. done.
Qed.

Lemma tagged_snoc t l e : tagged t (l ++ [e]) = tagged t l ++ [(t, e)].
Proof. unfold tagged. by rewrite fmap_app. Qed.

Lemma readers_inv_step cf cf' :
  readers_inv bits st za zb cf → step cf cf' → readers_inv bits st za zb cf'.
Proof.
  intros (na & nb & va & vb & Hna & Hnb & Hthr & Hown & Hlog) Hstep.
  assert (∃ t c k r, threads cf !! t = Some (Call c k)
            ∧ (delivers c = false → r = 0%Z)
            ∧ threads cf' = <[t := k r]> (threads cf)
            ∧ log cf' = log cf ++ [(t, (c, r))]
            ∧ (c = mutex_lock → owner cf = None ∧ owner cf' = Some t)
            ∧ (c = mutex_unlock → owner cf' = None)
            ∧ (c ≠ mutex_lock → c ≠ mutex_unlock → owner cf' = owner cf))
    as (t & c & k & r & Ht & Hr & Hthr' & Hlog' & Hlk & Hul & Hother).
  { destruct Hstep as [cf t k Ht Hfree | cf t k Ht | cf t c k v Ht Hsync Hv].
    - exists t, mutex_lock, k, 0%Z. by repeat split.
    - exists t, mutex_unlock, k, 0%Z. by repeat split.
    - exists t, c, k, v. do 4 (split; [done|]).
      split; [by intros ->|]. split; [by intros ->|]. done. }
  rewrite Hthr in Ht, Hthr'.
  destruct t as [|[|t]]; [| |done]; cbn in Ht; injection Ht as Ht.
  - (* reader 0 moves *)
    destruct (stage_step za na va c k Hna Ht) as (Hlt & Hc0 & Hc8 & Hk).
    destruct (Hk r Hr) as [Ek Et]. clear Hk.
    set (va' := if decide (na = 5) then r else va) in *.
    assert (Hnb' : nb = 0 ∨ nb = 9).
    { destruct (decide (c = mutex_lock)) as [Hc|Hc].
      - destruct (Hlk Hc) as [Hfree _]. rewrite Hown in Hfree.
        repeat case_decide; try done; lia.
      - destruct Hlog as [[? _]|[? _]]; [lia|].
        assert (na ≠ 0) by (intros ?; apply Hc, Hc0; done). lia. }
    exists (S na), nb, va', vb. split; [lia|]. split; [done|].
    split; [by rewrite Hthr', Ek|]. split.
    + destruct (decide (c = mutex_lock)) as [Hc|Hc];
        [|destruct (decide (c = mutex_unlock)) as [Hc'|Hc']].
      * destruct (Hlk Hc) as [_ ->]. apply Hc0 in Hc.
        rewrite decide_True by lia. done.
      * rewrite (Hul Hc'). apply Hc8 in Hc'.
        repeat case_decide; try done; lia.
      * rewrite (Hother Hc Hc'), Hown.
        assert (na ≠ 0) by (intros ?; apply Hc, Hc0; done).
        assert (na ≠ 8) by (intros ?; apply Hc', Hc8; done).
        rewrite !decide_True by lia. done.
    + rewrite Hlog'. destruct Hnb' as [->| ->].
      * left. split; [by left|]. rewrite Et, tagged_snoc.
        destruct Hlog as [[_ ->]|[_ ->]]; cbn; by rewrite ?app_nil_r.
      * right. split; [by right|]. rewrite Et, tagged_snoc.
        destruct Hlog as [[? _]|[_ ->]]; [lia|]. by rewrite app_assoc.
  - (* reader 1 moves *)
    destruct (stage_step zb nb vb c k Hnb Ht) as (Hlt & Hc0 & Hc8 & Hk).
    destruct (Hk r Hr) as [Ek Et]. clear Hk.
    set (vb' := if decide (nb = 5) then r else vb) in *.
    assert (Hna' : na = 0 ∨ na = 9).
    { destruct (decide (c = mutex_lock)) as [Hc|Hc].
      - destruct (Hlk Hc) as [Hfree _]. rewrite Hown in Hfree.
        repeat case_decide; try done; lia.
      - destruct Hlog as [[? _]|[? _]]; [|lia].
        assert (nb ≠ 0) by (intros ?; apply Hc, Hc0; done). lia. }
    exists na, (S nb), va, vb'. split; [done|]. split; [lia|].
    split; [by rewrite Hthr', Ek|]. split.
    + destruct (decide (c = mutex_lock)) as [Hc|Hc];
        [|destruct (decide (c = mutex_unlock)) as [Hc'|Hc']].
      * destruct (Hlk Hc) as [_ ->]. apply Hc0 in Hc.
        rewrite decide_False by lia. rewrite decide_True by lia. done.
      * rewrite (Hul Hc'). apply Hc8 in Hc'.
        repeat case_decide; try done; lia.
      * rewrite (Hother Hc Hc'), Hown.
        assert (nb ≠ 0) by (intros ?; apply Hc, Hc0; done).
        assert (nb ≠ 8) by (intros ?; apply Hc', Hc8; done).
        rewrite !(decide_False (P := 0 < na < 9)) by lia.
        rewrite !decide_True by lia. done.
    + rewrite Hlog'. destruct Hna' as [->| ->].
      * right. split; [by left|]. rewrite Et, tagged_snoc.
        destruct Hlog as [[_ ->]|[_ ->]]; cbn; by rewrite ?app_nil_r.
      * left. split; [by right|]. rewrite Et, tagged_snoc.
        destruct Hlog as [[_ ->]|[? _]]; [|lia]. by rewrite app_assoc.
Qed.

End TwoReaders.

Lemma stage_ret bits st zone n v r :
  pdev st ≠ NULL → (n ≤ 9)%nat →
  stage bits st zone n v = Ret r → n = 9%nat ∧ r = reading bits st zone v.
Proof.
  intros Hp Hn. unfold stage. rewrite get_temp_unfold by done.
  do 9 (destruct n as [|n]; [cbn; discriminate|]).
  destruct n; [|lia]. cbn. intros [= <-]. done.
Qed.

Lemma reachable_readers_inv bits st za zb cf :
  pdev st ≠ NULL →
  reachable {| threads := [get_temp bits st za; get_temp bits st zb];
               owner := None; log := [] |} cf →
  readers_inv bits st za zb cf.
Proof.
  intros Hp Hr.
  assert (readers_inv bits st za zb
            {| threads := [get_temp bits st za; get_temp bits st zb];
               owner := None; log := [] |}) as H0.
  { exists 0%nat, 0%nat, 0, 0. do 2 (split; [lia|]). do 2 (split; [reflexivity|]).
    left. split; [by left | reflexivity]. }
  induction Hr; eauto using readers_inv_step.
Qed.

(** C9: every read keeps the whole transaction between taking and giving
    back the mutex.  So when two callers read concurrently, in whatever
    order they are scheduled, no call of one falls inside the transaction
    of the other: the log is the calls of one reader followed by the
    calls of the other, the second not having started unless the first
    has made all nine of its calls.  When both have returned, the log is
    two whole transactions back to back and each reader reports the dword
    of its own transaction. *)
Theorem concurrent_reads_serialized bits st za zb cf :
  pdev st ≠ NULL →
  reachable {| threads := [get_temp bits st za; get_temp bits st zb];
               owner := None; log := [] |} cf →
  bracketed false (get_temp bits st za)
  ∧ bracketed false (get_temp bits st zb)
  ∧ serialized (log cf)
  ∧ ∃ na nb va vb,
      (na ≤ 9)%nat ∧ (nb ≤ 9)%nat
      ∧ one_after_other (pdev st) na nb va vb (log cf)
      ∧ ∀ ra rb, threads cf = [Ret ra; Ret rb] →
          na = 9%nat ∧ nb = 9%nat
          ∧ ra = reading bits st za va ∧ rb = reading bits st zb vb.
Proof.
  intros Hp Hr. split; [apply get_temp_bracketed|]. split; [apply get_temp_bracketed|].
  split.
  - eapply disciplined_serialized; [|exact Hr].
    repeat (apply Forall_cons; split; [apply get_temp_bracketed|]). apply Forall_nil_2.
  - destruct (reachable_readers_inv _ _ _ _ _ Hp Hr)
      as (na & nb & va & vb & Hna & Hnb & Hthr & _ & Hlog).
    exists na, nb, va, vb. do 3 (split; [done|]).
    intros ra rb Hret. rewrite Hthr in Hret. injection Hret as Ha Hb.
    destruct (stage_ret _ _ _ _ _ _ Hp Hna Ha) as [-> ->].
    destruct (stage_ret _ _ _ _ _ _ Hp Hnb Hb) as [-> ->]. done.
Qed.

(** A schedule on the sample board: reader 1 performs its whole
    transaction, the device presenting 0x00001E0A, then reader 0 takes the
    mutex and makes its first write. *)
Ltac sched cf' st := apply (rtc_l _ _ cf'); [ apply st; first [reflexivity | discriminate] | ].

Lemma concurrent_reads_serialized_witness :
  ∃ cf,
    log cf = tagged 1 (transaction 0x10 0x00001E0A)
             ++ tagged 0 (take 2 (transaction 0x10 0))
    ∧ bracketed false (get_temp 32 loaded 0x3000)
    ∧ bracketed false (get_temp 32 loaded 0x4000)
    ∧ serialized (log cf)
    ∧ ∃ na nb va vb,
        (na ≤ 9)%nat ∧ (nb ≤ 9)%nat
        ∧ one_after_other (pdev loaded) na nb va vb (log cf)
        ∧ ∀ ra rb, threads cf = [Ret ra; Ret rb] →
            na = 9%nat ∧ nb = 9%nat
            ∧ ra = reading 32 loaded 0x3000 va ∧ rb = reading 32 loaded 0x4000 vb.
Proof.
  pose (A := fun n => stage 32 loaded 0x3000 n 0).
  pose (B := fun n v => stage 32 loaded 0x4000 n v).
  pose (T := transaction 0x10 0x00001E0A).
  pose (cfg := fun a b o l =>
                 {| threads := [a; b] : list (prog (outcome status));
                    owner := o; log := l |}).
  exists (cfg (A 2%nat) (B 9%nat 0x00001E0A) (Some 0%nat)
              (tagged 1 T ++ tagged 0 (take 2 (transaction 0x10 0)))).
  split; [reflexivity|].
  apply (concurrent_reads_serialized 32 loaded 0x3000 0x4000).
  - unfold NULL. simpl. lia.
  - sched (cfg (A 0%nat) (B 1%nat 0) (Some 1%nat) (tagged 1 (take 1 T)))
          (step_lock (cfg (A 0%nat) (B 0%nat 0) None []) 1%nat (fun _ => B 1%nat 0)).
    sched (cfg (A 0%nat) (B 2%nat 0) (Some 1%nat) (tagged 1 (take 2 T)))
          (step_call (cfg (A 0%nat) (B 1%nat 0) (Some 1%nat) (tagged 1 (take 1 T))) 1%nat
             (pci_write_config_dword 0x10 0xD4 0xFFFFFFFF) (fun _ => B 2%nat 0) 0).
    sched (cfg (A 0%nat) (B 3%nat 0) (Some 1%nat) (tagged 1 (take 3 T)))
          (step_call (cfg (A 0%nat) (B 2%nat 0) (Some 1%nat) (tagged 1 (take 2 T))) 1%nat
             (pci_write_config_dword 0x10 0xD0 0xE004B000) (fun _ => B 3%nat 0) 0).
    sched (cfg (A 0%nat) (B 4%nat 0) (Some 1%nat) (tagged 1 (take 4 T)))
          (step_call (cfg (A 0%nat) (B 3%nat 0) (Some 1%nat) (tagged 1 (take 3 T))) 1%nat
             (msleep 100) (fun _ => B 4%nat 0) 0).
    sched (cfg (A 0%nat) (B 5%nat 0) (Some 1%nat) (tagged 1 (take 5 T)))
          (step_call (cfg (A 0%nat) (B 4%nat 0) (Some 1%nat) (tagged 1 (take 4 T))) 1%nat
             (pci_write_config_dword 0x10 0xD0 0xD004B100) (fun _ => B 5%nat 0) 0).
    sched (cfg (A 0%nat) (B 6%nat 0x00001E0A) (Some 1%nat) (tagged 1 (take 6 T)))
          (step_call (cfg (A 0%nat) (B 5%nat 0) (Some 1%nat) (tagged 1 (take 5 T))) 1%nat
             (pci_read_config_dword 0x10 0xD4) (fun reg => B 6%nat reg) 0x00001E0A).
    sched (cfg (A 0%nat) (B 7%nat 0x00001E0A) (Some 1%nat) (tagged 1 (take 7 T)))
          (step_call (cfg (A 0%nat) (B 6%nat 0x00001E0A) (Some 1%nat) (tagged 1 (take 6 T)))
             1%nat (pci_write_config_dword 0x10 0xD4 0) (fun _ => B 7%nat 0x00001E0A) 0).
    sched (cfg (A 0%nat) (B 8%nat 0x00001E0A) (Some 1%nat) (tagged 1 (take 8 T)))
          (step_call (cfg (A 0%nat) (B 7%nat 0x00001E0A) (Some 1%nat) (tagged 1 (take 7 T)))
             1%nat (pci_write_config_dword 0x10 0xD0 0xE004B000)
             (fun _ => B 8%nat 0x00001E0A) 0).
    sched (cfg (A 0%nat) (B 9%nat 0x00001E0A) None (tagged 1 T))
          (step_unlock (cfg (A 0%nat) (B 8%nat 0x00001E0A) (Some 1%nat) (tagged 1 (take 8 T)))
             1%nat (fun _ => B 9%nat 0x00001E0A)).
    sched (cfg (A 1%nat) (B 9%nat 0x00001E0A) (Some 0%nat)
             (tagged 1 T ++ tagged 0 (take 1 (transaction 0x10 0))))
          (step_lock (cfg (A 0%nat) (B 9%nat 0x00001E0A) None (tagged 1 T)) 0%nat
             (fun _ => A 1%nat)).
    sched (cfg (A 2%nat) (B 9%nat 0x00001E0A) (Some 0%nat)
             (tagged 1 T ++ tagged 0 (take 2 (transaction 0x10 0))))
          (step_call (cfg (A 1%nat) (B 9%nat 0x00001E0A) (Some 0%nat)
                        (tagged 1 T ++ tagged 0 (take 1 (transaction 0x10 0)))) 0%nat
             (pci_write_config_dword 0x10 0xD4 0xFFFFFFFF) (fun _ => A 2%nat) 0).
    apply rtc_refl.
Defined.

(** * Further properties *)

(** ** The conversion over all bytes *)

Lemma forall_bytes (P : Z → bool) :
  forallb P (Z.of_nat <$> seq 0 256) = true →
  ∀ raw, 0 <= raw <= 255 → P raw = true.
Proof.
  intros Hall raw Hraw.
  apply (proj1 (forallb_forall P _) Hall).
  apply list_elem_of_In, list_elem_of_fmap. exists (Z.to_nat raw).
  split; [lia|]. apply elem_of_seq. lia.
Qed.

Lemma temp_convert_25_127 raw : 0 <= raw <= 255 → 25 <= temp_convert raw <= 127.
Proof.
  intros Hraw.
  pose proof (forall_bytes
    (fun r => (25 <=? temp_convert r) && (temp_convert r <=? 127))
    ltac:(vm_compute; reflexivity) raw Hraw) as H.
  apply andb_prop in H as [H1 H2]. lia.
Qed.

(** X1: over the 256 bytes [temp_convert] stays between 25 and 127, and
    both ends are reached (at 230 and at 0); in particular it is never
    negative. *)
Theorem temp_convert_bounds raw :
  0 <= raw <= 255 →
  25 <= temp_convert raw <= 127
  ∧ temp_convert 230 = 25
  ∧ temp_convert 0 = 127.
Proof.
  intros Hraw. split; [by apply temp_convert_25_127|split; reflexivity].
Qed.

Lemma temp_convert_bounds_witness :
  25 <= temp_convert 246 <= 127 ∧ temp_convert 230 = 25 ∧ temp_convert 0 = 127.
Proof. apply (temp_convert_bounds 246). lia. Defined.

(** X2: the converted temperature reaches the critical and trip
    temperature, 119, exactly for the raw bytes 0 to 10. *)
Theorem temp_convert_critical raw :
  0 <= raw <= 255 →
  (TEMP_CRIT <= temp_convert raw ↔ raw <= 10)
  ∧ (TEMP_TRIP <= temp_convert raw ↔ raw <= 10).
Proof.
  intros Hraw.
  pose proof (forall_bytes
    (fun r => Bool.eqb (119 <=? temp_convert r) (r <=? 10))
    ltac:(vm_compute; reflexivity) raw Hraw) as H.
  apply Bool.eqb_prop in H. unfold TEMP_CRIT, TEMP_TRIP.
  destruct (Z.leb_spec 119 (temp_convert raw)), (Z.leb_spec raw 10);
    try discriminate; split; split; lia.
Qed.

Lemma temp_convert_critical_witness :
  (TEMP_CRIT <= temp_convert 11 ↔ 11 <= 10)
  ∧ (TEMP_TRIP <= temp_convert 11 ↔ 11 <= 10).
Proof. apply (temp_convert_critical 11). lia. Defined.

(** ** Reads, one after another *)

Lemma run_get_temp_reading bits K st zone tr :
  (run K (get_temp bits st zone) tr).1
  = reading bits st zone (read_value K (pdev st) tr).
Proof.
  unfold reading, get_temp. destruct (pdev st =? NULL); [reflexivity|].
  cbn [run answer delivers]. rewrite <- !app_assoc. cbn [app].
  set (v := K _ _). replace (read_value K (pdev st) tr) with v by reflexivity.
  destruct (mem st !! tz0 st) as [t0|]; [|reflexivity].
  destruct (zone =? dev t0); [reflexivity|].
  destruct (mem st !! tz1 st) as [t1|]; [|reflexivity].
  destruct (zone =? dev t1); reflexivity.
Qed.

(** X3: whatever word the device presents, a read that stores a
    temperature returns success, had the device handle, stores a value
    between 25 and 127, and was asked for the zone recorded in one of the
    two descriptors. *)
Theorem get_temp_store_bounded bits K st zone tr code t :
  32 <= bits →
  (run K (get_temp bits st zone) tr).1 = Done (code, Some t) →
  code = 0
  ∧ pdev st ≠ NULL
  ∧ 25 <= t <= 127
  ∧ ((∃ t0, mem st !! tz0 st = Some t0 ∧ zone = dev t0)
     ∨ (∃ t1, mem st !! tz1 st = Some t1 ∧ zone = dev t1)).
Proof.
  intros Hbits. destruct (decide (pdev st = NULL)) as [Hnull|Hp].
  { rewrite run_get_temp_absent by done. discriminate. }
  unfold get_temp. rewrite (proj2 (Z.eqb_neq _ _) Hp).
  cbn [run answer delivers]. rewrite low_byte, next_byte.
  set (w := K _ _).
  assert (Hb0 : 0 <= w mod 2 ^ 8 <= 255) by (pose proof (Z.mod_pos_bound w (2 ^ 8)); lia).
  assert (Hb1 : 0 <= w / 2 ^ 8 mod 2 ^ 8 <= 255)
    by (pose proof (Z.mod_pos_bound (w / 2 ^ 8) (2 ^ 8)); lia).
  pose proof (temp_convert_25_127 _ Hb0) as Hr0.
  pose proof (temp_convert_25_127 _ Hb1) as Hr1.
  destruct (mem st !! tz0 st) as [t0|]; [|discriminate].
  destruct (zone =? dev t0) eqn:E0.
  - cbn [run fst]. intros [= <- <-]. rewrite to_ulong_small by (done || lia).
    apply Z.eqb_eq in E0. repeat split; try done; try lia. left. by exists t0.
  - destruct (mem st !! tz1 st) as [t1|]; [|discriminate].
    destruct (zone =? dev t1) eqn:E1; [|discriminate].
    cbn [run fst]. intros [= <- <-]. rewrite to_ulong_small by (done || lia).
    apply Z.eqb_eq in E1. repeat split; try done; try lia. right. by exists t1.
Qed.

Lemma get_temp_store_bounded_witness :
  0 = 0
  ∧ pdev loaded ≠ NULL
  ∧ 25 <= 104 <= 127
  ∧ ((∃ t0, mem loaded !! tz0 loaded = Some t0 ∧ 0x4000 = dev t0)
     ∨ (∃ t1, mem loaded !! tz1 loaded = Some t1 ∧ 0x4000 = dev t1)).
Proof.
  apply (get_temp_store_bounded 32 (scripted [0x00001E0A]) loaded 0x4000 [] 0 104).
  - lia.
  - reflexivity.
Defined.

(** X4: reads keep nothing from one call to the next.  Two reads in a
    row make two whole transactions, and each reports what its own
    transaction read. *)
Theorem two_reads_fresh bits K st za zb tr :
  pdev st ≠ NULL →
  let d := pdev st in
  let v1 := read_value K d tr in
  let v2 := read_value K d (tr ++ transaction d v1) in
  let r1 := run K (get_temp bits st za) tr in
  let r2 := run K (get_temp bits st zb) r1.2 in
  r2.2 = tr ++ transaction d v1 ++ transaction d v2
  ∧ r1.1 = reading bits st za v1
  ∧ r2.1 = reading bits st zb v2.
Proof.
  intros Hp d v1 v2 r1 r2. unfold r2, r1.
  rewrite !run_get_temp_reading, !run_get_temp_events by done.
  by rewrite <- app_assoc.
Qed.

Lemma two_reads_fresh_witness :
  let K := scripted [0x00001E0A; 0x0000FF00] in
  let r1 := run K (get_temp 32 loaded 0x3000) [] in
  let r2 := run K (get_temp 32 loaded 0x3000) r1.2 in
  r2.2 = transaction 0x10 0x00001E0A ++ transaction 0x10 0x0000FF00
  ∧ r1.1 = reading 32 loaded 0x3000 0x00001E0A
  ∧ r2.1 = reading 32 loaded 0x3000 0x0000FF00.
Proof.
  apply (two_reads_fresh 32 (scripted [0x00001E0A; 0x0000FF00]) loaded 0x3000 0x3000 []).
  unfold NULL. simpl. lia.
Defined.

(** ** Every outcome of a load *)

Lemma delivered_snoc tr c v :
  delivered (tr ++ [(c, v)]) = (delivered tr + if delivers c then 1 else 0)%nat.
Proof.
  induction tr as [|[c' v'] tr IH]; simpl.
  - by destruct (delivers c).
  - rewrite IH. destruct (delivers c'), (delivers c); lia.
Qed.

(** On a given run a kernel acts as the script of the answers it gave. *)
Lemma run_scripted {A} K (p : prog A) tr pre :
  length pre = delivered tr →
  run (scripted (pre ++ answers_of K p tr)) p tr = run K p tr.
Proof.
  revert tr pre. induction p as [a|c k IH]; intros tr pre Hpre; [reflexivity|].
  cbn [run answers_of]. set (v := answer K tr c).
  assert (answer (scripted (pre ++ (if delivers c then [v] else [])
                              ++ answers_of K (k v) (tr ++ [(c, v)]))) tr c = v) as Hv.
  { unfold answer at 1. unfold v, answer. destruct (delivers c); [|reflexivity].
    unfold scripted. rewrite <- Hpre. cbn [app].
    rewrite app_nth2 by lia. by rewrite Nat.sub_diag. }
  rewrite Hv. rewrite app_assoc. apply IH.
  rewrite delivered_snoc, length_app, Hpre. by destruct (delivers c).
Qed.

Lemma store_then_load st p z :
  is_Some (mem st !! p) →
  ∃ st', store_dev st p z = Some st'
         ∧ load_dev st' p = Some z
         ∧ tz0 st' = tz0 st ∧ tz1 st' = tz1 st
         ∧ ∀ q, is_Some (mem st !! q) → is_Some (mem st' !! q).
Proof.
  intros [t Ht]. unfold store_dev, load_dev. rewrite Ht. eexists.
  split; [reflexivity|]. cbn [mem set_mem tz0 tz1].
  split; [by rewrite lookup_insert_eq|]. do 2 (split; [reflexivity|]).
  intros q Hq. rewrite lookup_insert. by case_decide.
Qed.

Lemma run_init_script (a : list Z) st :
  ∃ st', run (scripted a) (fitpc2_init st) [] = (Done (init_code a, st'), init_trace a).
Proof.
  unfold fitpc2_init, init_code, init_trace, init_calls_made, scripted.
  cbn [run answer delivers delivered app nth].
  destruct (nth 0 a 0 =? 0); [eexists; reflexivity|].
  cbn [run answer delivers delivered app nth tz0 tz1 set_tz0 set_tz1].
  destruct (nth 2 a 0 =? NULL) eqn:E0; [eexists; reflexivity|].
  cbn [run answer delivers delivered app nth tz0 tz1 set_tz0 set_tz1].
  destruct (nth 3 a 0 =? NULL) eqn:E1; [eexists; reflexivity|].
  cbn [run answer delivers delivered app nth].
  unfold zalloc. rewrite E0, E1.
  cbn [mem pdev tz0 tz1 set_mem set_pdev set_tz0 set_tz1].
  set (st2 := set_tz1 _ _).
  assert (is_Some (mem st2 !! nth 2 a 0) ∧ is_Some (mem st2 !! nth 3 a 0)) as [H0 H1].
  { unfold st2. cbn [mem set_tz1 set_tz0 set_mem set_pdev]. rewrite !lookup_insert.
    split; repeat case_decide; eauto; done. }
  destruct (store_then_load st2 (nth 2 a 0) (nth 4 a 0) H0)
    as (st3 & -> & Hl & E30 & E31 & Hkeep).
  rewrite E30. change (tz0 st2) with (nth 2 a 0). rewrite Hl.
  apply Hkeep in H1.
  destruct (nth 4 a 0 =? NULL); [eexists; reflexivity|].
  cbn [run answer delivers delivered app nth].
  rewrite E31. change (tz1 st2) with (nth 3 a 0).
  destruct (store_then_load st3 (nth 3 a 0) (nth 5 a 0) H1)
    as (st4 & -> & Hl4 & _ & E41 & _).
  rewrite E41, E31. change (tz1 st2) with (nth 3 a 0). rewrite Hl4.
  destruct (nth 5 a 0 =? NULL); eexists; reflexivity.
Qed.

Lemma run_init_any K st :
  ∃ a st', run K (fitpc2_init st) [] = (Done (init_code a, st'), init_trace a).
Proof.
  exists (answers_of K (fitpc2_init st) []).
  rewrite <- (run_scripted K (fitpc2_init st) [] []) by reflexivity.
  apply run_init_script.
Qed.

(** X5: a load never faults, whatever the kernel answers.  Its status is
    decided by the first call that fails: -ENODEV when nothing matches the
    DMI table, -ENOMEM when a block is null, -EBUSY when a zone is null, 0
    when all of them succeed; the answer of the device enumeration plays
    no part.  The calls it makes are the first 1, 4, 5, 6 or 7 calls of a
    whole load. *)
Theorem fitpc2_init_outcomes K st :
  let a := answers_of K (fitpc2_init st) [] in
  ∃ st',
    run K (fitpc2_init st) [] = (Done (init_code a, st'), init_trace a)
    ∧ (init_code a = - ENODEV ↔ nth 0 a 0 = 0)
    ∧ (init_code a = - ENOMEM ↔
         nth 0 a 0 ≠ 0 ∧ (nth 2 a 0 = NULL ∨ nth 3 a 0 = NULL))
    ∧ (init_code a = - EBUSY ↔
         nth 0 a 0 ≠ 0 ∧ nth 2 a 0 ≠ NULL ∧ nth 3 a 0 ≠ NULL
         ∧ (nth 4 a 0 = NULL ∨ nth 5 a 0 = NULL))
    ∧ (init_code a = 0 ↔
         nth 0 a 0 ≠ 0 ∧ nth 2 a 0 ≠ NULL ∧ nth 3 a 0 ≠ NULL
         ∧ nth 4 a 0 ≠ NULL ∧ nth 5 a 0 ≠ NULL).
Proof.
  intros a.
  destruct (run_init_script a st) as [st' Hrun]. exists st'. split.
  { rewrite <- Hrun. symmetry. apply (run_scripted K (fitpc2_init st) [] []). reflexivity. }
  unfold init_code, ENODEV, ENOMEM, EBUSY, NULL.
  destruct (Z.eqb_spec (nth 0 a 0) 0), (Z.eqb_spec (nth 2 a 0) 0),
    (Z.eqb_spec (nth 3 a 0) 0), (Z.eqb_spec (nth 4 a 0) 0),
    (Z.eqb_spec (nth 5 a 0) 0); intuition lia.
Qed.

Lemma held_no_release acc tr :
  Forall (fun e => released e = None) tr →
  foldl held_step acc tr = acc ++ omap acquired tr.
Proof.
  revert acc. induction tr as [|e tr IH]; intros acc Hall; cbn [foldl omap list_omap].
  - by rewrite app_nil_r.
  - apply Forall_cons in Hall as [He Hall]. rewrite IH by done.
    unfold held_step. rewrite He. destruct (acquired e); [|done].
    by rewrite <- app_assoc.
Qed.

(** X6: a load never gives anything back.  Whatever the kernel answers,
    none of its calls is [kfree], [thermal_zone_device_unregister] or
    [pci_dev_put]; so when it returns, also with an error, it still holds
    everything it acquired. *)
Theorem fitpc2_init_never_releases K st :
  let tr := (run K (fitpc2_init st) []).2 in
  Forall (fun e => released e = None) tr
  ∧ held tr = omap acquired tr
  ∧ (length tr ≤ 7)%nat.
Proof.
  intros tr. destruct (run_init_any K st) as (a & st' & Hrun).
  assert (Forall (fun e => released e = None) tr) as Hall.
  { unfold tr. rewrite Hrun. cbn [snd]. unfold init_trace.
    apply Forall_take. unfold load_calls.
    repeat (apply Forall_cons; split; [reflexivity|]). apply Forall_nil_2. }
  split; [done|]. split.
  - unfold held. by rewrite held_no_release.
  - unfold tr. rewrite Hrun. cbn [snd]. unfold init_trace.
    rewrite length_take. cbn [length load_calls]. lia.
Qed.

Lemma remove_first_head r l : remove_first r (r :: l) = l.
Proof. cbn [remove_first]. by rewrite decide_True. Qed.

Lemma remove_first_skip r x l : x ≠ r → remove_first r (x :: l) = x :: remove_first r l.
Proof. intros H. cbn [remove_first]. by rewrite decide_False. Qed.

(** X7: an unload after a successful load gives everything back.  It
    unregisters the two zones, destroys the mutex, frees the two blocks
    and puts the device, in this order, and nothing acquired by the load
    is held afterwards; the two blocks are gone from memory. *)
Theorem load_unload_balanced n d p0 p1 z0 z1 st K :
  n ≠ 0 → p0 ≠ NULL → p1 ≠ NULL → p0 ≠ p1 → z0 ≠ NULL → z1 ≠ NULL →
  ∃ st1 st2,
    run (scripted [n; d; p0; p1; z0; z1]) (fitpc2_init st) []
    = (Done (0, st1), load_calls n d p0 p1 z0 z1)
    ∧ run K (fitpc2_exit st1) (load_calls n d p0 p1 z0 z1)
      = (Done st2, load_calls n d p0 p1 z0 z1 ++ unload_calls d p0 p1 z0 z1)
    ∧ held (load_calls n d p0 p1 z0 z1 ++ unload_calls d p0 p1 z0 z1) = []
    ∧ mem st2 !! p0 = None ∧ mem st2 !! p1 = None.
Proof.
  intros Hn Hp0 Hp1 Hne Hz0 Hz1. eexists _, _.
  split; [by apply run_init_loaded|]. split; [|split].
  - unfold fitpc2_exit. cbn [mem tz0 tz1 pdev].
    rewrite lookup_insert_ne by done. rewrite lookup_insert_eq.
    cbn [run answer delivers dev]. rewrite lookup_insert_eq.
    cbn [run answer delivers dev]. rewrite <- !app_assoc. reflexivity.
  - unfold held. rewrite foldl_app, (held_no_release [] (load_calls n d p0 p1 z0 z1)).
    2: { unfold load_calls.
         repeat (apply Forall_cons; split; [reflexivity|]). apply Forall_nil_2. }
    unfold load_calls. cbn [omap list_omap acquired app].
    rewrite (proj2 (Z.eqb_neq p0 NULL) Hp0), (proj2 (Z.eqb_neq p1 NULL) Hp1),
      (proj2 (Z.eqb_neq z0 NULL) Hz0), (proj2 (Z.eqb_neq z1 NULL) Hz1).
    unfold unload_calls.
    destruct (d =? NULL); cbn [foldl held_step acquired released app].
    + repeat (rewrite remove_first_skip by done). rewrite remove_first_head.
      repeat (rewrite remove_first_skip by done). rewrite remove_first_head.
      rewrite remove_first_head. rewrite remove_first_head. reflexivity.
    + repeat (rewrite remove_first_skip by done). rewrite remove_first_head.
      repeat (rewrite remove_first_skip by done). rewrite remove_first_head.
      repeat (rewrite remove_first_skip by done). rewrite remove_first_head.
      repeat (rewrite remove_first_skip by done). rewrite remove_first_head.
      apply remove_first_head.
  - unfold free. cbn [mem set_mem tz0 tz1]. split.
    + rewrite lookup_delete_ne by done. apply lookup_delete_eq.
    + apply lookup_delete_eq.
Qed.

Lemma load_unload_balanced_witness :
  ∃ st1 st2,
    run (scripted [1; 0x10; 0x1000; 0x2000; 0x3000; 0x4000]) (fitpc2_init unloaded) []
    = (Done (0, st1), load_calls 1 0x10 0x1000 0x2000 0x3000 0x4000)
    ∧ run (scripted []) (fitpc2_exit st1) (load_calls 1 0x10 0x1000 0x2000 0x3000 0x4000)
      = (Done st2, load_calls 1 0x10 0x1000 0x2000 0x3000 0x4000
                   ++ unload_calls 0x10 0x1000 0x2000 0x3000 0x4000)
    ∧ held (load_calls 1 0x10 0x1000 0x2000 0x3000 0x4000
            ++ unload_calls 0x10 0x1000 0x2000 0x3000 0x4000) = []
    ∧ mem st2 !! 0x1000 = None ∧ mem st2 !! 0x2000 = None.
Proof.
  apply (load_unload_balanced 1 0x10 0x1000 0x2000 0x3000 0x4000 unloaded (scripted []));
    unfold NULL; lia.
Defined.

(** X8: after a successful load that found the device, a read of the
    first registered zone reports the conversion of the low byte of the
    status word, a read of the second zone that of the next byte, and a
    read of any other zone stores nothing; all three return success. *)
Theorem load_then_read bits n d p0 p1 z0 z1 st K tr :
  n ≠ 0 → d ≠ NULL → p0 ≠ NULL → p1 ≠ NULL → p0 ≠ p1 →
  z0 ≠ NULL → z1 ≠ NULL → z0 ≠ z1 → 32 <= bits →
  ∃ st1,
    (run (scripted [n; d; p0; p1; z0; z1]) (fitpc2_init st) []).1 = Done (0, st1)
    ∧ let w := read_value K d tr in
      (run K (get_temp bits st1 z0) tr).1 = Done (0, Some (temp_convert (w mod 2 ^ 8)))
      ∧ (run K (get_temp bits st1 z1) tr).1
        = Done (0, Some (temp_convert (w / 2 ^ 8 mod 2 ^ 8)))
      ∧ ∀ zone, zone ≠ z0 → zone ≠ z1 →
          (run K (get_temp bits st1 zone) tr).1 = Done (0, None).
Proof.
  intros Hn Hd Hp0 Hp1 Hne Hz0 Hz1 Hz Hbits.
  destruct (run_init_script [n; d; p0; p1; z0; z1] st) as [st1 Hrun].
  assert (init_code [n; d; p0; p1; z0; z1] = 0) as Hcode.
  { unfold init_code. cbn [nth].
    by rewrite (proj2 (Z.eqb_neq n 0) Hn), (proj2 (Z.eqb_neq p0 NULL) Hp0),
      (proj2 (Z.eqb_neq p1 NULL) Hp1), (proj2 (Z.eqb_neq z0 NULL) Hz0),
      (proj2 (Z.eqb_neq z1 NULL) Hz1). }
  rewrite Hcode in Hrun. exists st1. split; [by rewrite Hrun|].
  destruct (loaded_descriptors n d p0 p1 z0 z1 st st1) as (Hpd & H0 & H1);
    try done; [by rewrite Hrun|].
  assert (Hp : pdev st1 ≠ NULL) by (by rewrite Hpd).
  intros w. unfold w. rewrite <- Hpd.
  set (v := read_value K (pdev st1) tr).
  assert (Hb0 : 0 <= v mod 2 ^ 8 <= 255) by (pose proof (Z.mod_pos_bound v (2 ^ 8)); lia).
  assert (Hb1 : 0 <= v / 2 ^ 8 mod 2 ^ 8 <= 255)
    by (pose proof (Z.mod_pos_bound (v / 2 ^ 8) (2 ^ 8)); lia).
  split; [|split].
  - rewrite (run_get_temp_result bits K st1 Hp z0 tr _ _ H0 H1). cbn [dev].
    rewrite Z.eqb_refl. fold v.
    rewrite to_ulong_small; [done | done | by apply temp_convert_range].
  - rewrite (run_get_temp_result bits K st1 Hp z1 tr _ _ H0 H1). cbn [dev].
    rewrite (proj2 (Z.eqb_neq z1 z0)) by done. rewrite Z.eqb_refl. fold v.
    rewrite to_ulong_small; [done | done | by apply temp_convert_range].
  - intros zone Hn0 Hn1.
    rewrite (run_get_temp_result bits K st1 Hp zone tr _ _ H0 H1). cbn [dev].
    by rewrite (proj2 (Z.eqb_neq zone z0)), (proj2 (Z.eqb_neq zone z1)).
Qed.

Lemma load_then_read_witness :
  ∃ st1,
    (run (scripted [1; 0x10; 0x1000; 0x2000; 0x3000; 0x4000]) (fitpc2_init unloaded) []).1
    = Done (0, st1)
    ∧ let w := read_value (scripted [0x00001E0A]) 0x10 [] in
      (run (scripted [0x00001E0A]) (get_temp 32 st1 0x3000) []).1
      = Done (0, Some (temp_convert (w mod 2 ^ 8)))
      ∧ (run (scripted [0x00001E0A]) (get_temp 32 st1 0x4000) []).1
        = Done (0, Some (temp_convert (w / 2 ^ 8 mod 2 ^ 8)))
      ∧ ∀ zone, zone ≠ 0x3000 → zone ≠ 0x4000 →
          (run (scripted [0x00001E0A]) (get_temp 32 st1 zone) []).1 = Done (0, None).
Proof.
  apply (load_then_read 32 1 0x10 0x1000 0x2000 0x3000 0x4000 unloaded
           (scripted [0x00001E0A]) []); unfold NULL; lia.
Defined.

(** ** Any number of readers *)

(** X9: however many reads run concurrently and however they are
    scheduled, no call of one falls inside the transaction of another,
    and a reader about to access the configuration space, to sleep inside
    the transaction or to unlock is the one that owns the mutex. *)
Theorem any_readers_serialized bits st (zones : list ptr) cf :
  reachable {| threads := get_temp bits st <$> zones; owner := None; log := [] |} cf →
  serialized (log cf)
  ∧ ∀ t c k, threads cf !! t = Some (Call c k) →
      is_txn_op c = true ∨ c = mutex_unlock →
      owner cf = Some t.
Proof.
  intros Hr.
  assert (Forall (bracketed false) (get_temp bits st <$> zones)) as Hall.
  { apply Forall_fmap, Forall_forall. intros z _. apply get_temp_bracketed. }
  split; [by eapply disciplined_serialized|].
  assert (disciplined {| threads := get_temp bits st <$> zones;
                         owner := None; log := [] |}) as H0.
  { split; [|done]. cbn [threads owner]. intros t p Hp.
    rewrite bool_decide_eq_false_2 by done. eapply Forall_lookup_1; eauto. }
  destruct (reachable_disciplined _ _ H0 Hr) as [Hthr _].
  intros t c k Ht Hc. specialize (Hthr t _ Ht).
  destruct (bool_decide (owner cf = Some t)) eqn:E; [by apply bool_decide_eq_true in E|].
  exfalso. destruct Hc as [Hc| ->].
  - destruct c; try discriminate; cbn in Hthr; destruct Hthr as [Hh _];
      by specialize (Hh eq_refl).
  - cbn in Hthr. by destruct Hthr.
Qed.

Lemma any_readers_serialized_witness :
  ∃ cf : config (outcome status),
    log cf = tagged 2 (take 2 (transaction 0x10 0))
    ∧ serialized (log cf)
    ∧ ∀ t c k, threads cf !! t = Some (Call c k) →
        is_txn_op c = true ∨ c = mutex_unlock →
        owner cf = Some t.
Proof.
  pose (R := fun z n => stage 32 loaded z n 0).
  pose (cfg := fun a b c o l =>
                 {| threads := [a; b; c] : list (prog (outcome status));
                    owner := o; log := l |}).
  exists (cfg (R 0x3000 0%nat) (R 0x4000 0%nat) (R 0x3000 2%nat) (Some 2%nat)
              (tagged 2 (take 2 (transaction 0x10 0)))).
  split; [reflexivity|].
  apply (any_readers_serialized 32 loaded [0x3000; 0x4000; 0x3000]).
  sched (cfg (R 0x3000 0%nat) (R 0x4000 0%nat) (R 0x3000 1%nat) (Some 2%nat)
             (tagged 2 (take 1 (transaction 0x10 0))))
        (step_lock (cfg (R 0x3000 0%nat) (R 0x4000 0%nat) (R 0x3000 0%nat) None [])
           2%nat (fun _ => R 0x3000 1%nat)).
  sched (cfg (R 0x3000 0%nat) (R 0x4000 0%nat) (R 0x3000 2%nat) (Some 2%nat)
             (tagged 2 (take 2 (transaction 0x10 0))))
        (step_call (cfg (R 0x3000 0%nat) (R 0x4000 0%nat) (R 0x3000 1%nat) (Some 2%nat)
                      (tagged 2 (take 1 (transaction 0x10 0)))) 2%nat
           (pci_write_config_dword 0x10 0xD4 0xFFFFFFFF) (fun _ => R 0x3000 2%nat) 0).
  apply rtc_refl.
Defined.

(** ** Two readers always finish *)

Lemma stage_call bits st zone n v :
  pdev st ≠ NULL → (n < 9)%nat →
  ∃ c k, stage bits st zone n v = Call c k
         ∧ (n = 0%nat → c = mutex_lock)
         ∧ (n = 8%nat → c = mutex_unlock)
         ∧ ((0 < n < 8)%nat → is_sync c = false).
Proof.
  intros Hp Hn. unfold stage. rewrite get_temp_unfold by done.
  do 9 (destruct n as [|n];
        [ eexists _, _; split; [reflexivity|];
          split; [intros; (reflexivity || lia)|];
          split; intros; (reflexivity || lia) |]).
  lia.
Qed.

Lemma length_transaction_prefix t n d v :
  length (tagged t (take n (transaction d v))) = (n `min` 9)%nat.
Proof. unfold tagged. rewrite length_fmap, length_take. reflexivity. Qed.

(** X10: two concurrent reads cannot block each other for ever and
    cannot run for ever.  In every state they can reach, either some
    reader can take a step, or both have returned, the mutex is free and
    the log holds exactly the 18 calls of two transactions; the log never
    holds more. *)
Theorem two_readers_progress bits st za zb cf :
  pdev st ≠ NULL →
  reachable {| threads := [get_temp bits st za; get_temp bits st zb];
               owner := None; log := [] |} cf →
  (length (log cf) ≤ 18)%nat
  ∧ ((∃ cf', step cf cf')
     ∨ (∃ ra rb, threads cf = [Ret ra; Ret rb]
                 ∧ owner cf = None
                 ∧ length (log cf) = 18%nat)).
Proof.
  intros Hp Hr.
  destruct (reachable_readers_inv _ _ _ _ _ Hp Hr)
    as (na & nb & va & vb & Hna & Hnb & Hthr & Hown & Hlog).
  assert (length (log cf) = (na + nb)%nat) as Hlen.
  { destruct Hlog as [[_ ->]|[_ ->]];
      rewrite length_app, !length_transaction_prefix; lia. }
  split; [lia|].
  destruct (decide (0 < na < 9)%nat) as [Ha|Ha].
  { left. destruct (stage_call bits st za na va Hp) as (c & k & Hc & _ & H8 & Hmid); [lia|].
    destruct (decide (na = 8%nat)) as [E|E].
    - eexists. apply (step_unlock cf 0%nat k). rewrite Hthr, Hc, (H8 E). reflexivity.
    - eexists. apply (step_call cf 0%nat c k 0).
      + rewrite Hthr, Hc. reflexivity.
      + apply Hmid. lia.
      + done. }
  destruct (decide (0 < nb < 9)%nat) as [Hb|Hb].
  { left. destruct (stage_call bits st zb nb vb Hp) as (c & k & Hc & _ & H8 & Hmid); [lia|].
    destruct (decide (nb = 8%nat)) as [E|E].
    - eexists. apply (step_unlock cf 1%nat k). rewrite Hthr, Hc, (H8 E). reflexivity.
    - eexists. apply (step_call cf 1%nat c k 0).
      + rewrite Hthr, Hc. reflexivity.
      + apply Hmid. lia.
      + done. }
  destruct (decide (na = 0%nat)) as [Ea|Ea].
  { left. destruct (stage_call bits st za na va Hp) as (c & k & Hc & H0 & _); [lia|].
    eexists. apply (step_lock cf 0%nat k); [|done].
    rewrite Hthr, Hc, (H0 Ea). reflexivity. }
  destruct (decide (nb = 0%nat)) as [Eb|Eb].
  { left. destruct (stage_call bits st zb nb vb Hp) as (c & k & Hc & H0 & _); [lia|].
    eexists. apply (step_lock cf 1%nat k); [|done].
    rewrite Hthr, Hc, (H0 Eb). reflexivity. }
  right. assert (na = 9%nat) as -> by lia. assert (nb = 9%nat) as -> by lia.
  rewrite !stage_done in Hthr by done. eexists _, _.
  split; [exact Hthr|]. split; [done|]. lia.
Qed.

Lemma two_readers_progress_witness :
  ∃ cf : config (outcome status),
    log cf = tagged 1 (take 2 (transaction 0x10 0))
    ∧ (length (log cf) ≤ 18)%nat
    ∧ ((∃ cf', step cf cf')
       ∨ (∃ ra rb, threads cf = [Ret ra; Ret rb]
                   ∧ owner cf = None
                   ∧ length (log cf) = 18%nat)).
Proof.
  pose (A := fun n => stage 32 loaded 0x3000 n 0).
  pose (B := fun n => stage 32 loaded 0x4000 n 0).
  pose (cfg := fun a b o l =>
                 {| threads := [a; b] : list (prog (outcome status));
                    owner := o; log := l |}).
  exists (cfg (A 0%nat) (B 2%nat) (Some 1%nat) (tagged 1 (take 2 (transaction 0x10 0)))).
  split; [reflexivity|].
  apply (two_readers_progress 32 loaded 0x3000 0x4000).
  - unfold NULL. simpl. lia.
  - sched (cfg (A 0%nat) (B 1%nat) (Some 1%nat) (tagged 1 (take 1 (transaction 0x10 0))))
          (step_lock (cfg (A 0%nat) (B 0%nat) None []) 1%nat (fun _ => B 1%nat)).
    sched (cfg (A 0%nat) (B 2%nat) (Some 1%nat) (tagged 1 (take 2 (transaction 0x10 0))))
          (step_call (cfg (A 0%nat) (B 1%nat) (Some 1%nat)
                        (tagged 1 (take 1 (transaction 0x10 0)))) 1%nat
             (pci_write_config_dword 0x10 0xD4 0xFFFFFFFF) (fun _ => B 2%nat) 0).
    apply rtc_refl.
Defined.
